(** * rayleigh_benard_2d.py: the orchestration core of the scaling test

    A shallow embedding of [src/rayleigh_benard_2d.py].  The script drives
    three external objects of the Dedalus library (the solver, the CFL
    controller [flow_tools.CFL] and the process grid); what the script
    itself owns is

    - the reading of the command line and the integration parameters
      (lines 36-45 and 121-132),
    - the random initial condition (lines 103-112),
    - the main loop with its [try]/[except]/[finally] (lines 136-155),
    - the statistics printed by rank 0 (lines 157-180).

    Python floats are modelled as rationals [Q], Python ints as [Z].  A
    division whose divisor is zero raises [ZeroDivisionError], as Python's
    [/] does on ints and floats; reading a name that was never bound raises
    [NameError]. *)

From Stdlib Require Import ZArith QArith Qminmax Qabs Qround Lqa Lia List Bool
  String.
Import ListNotations.

Open Scope Z_scope.
Open Scope Q_scope.

(* ===================================================================== *)
(** ** Command line and integration parameters *)
(* ===================================================================== *)

(** The values docopt hands to the script, after [int(...)] / [float(...)]
    of the option strings.  [--nx] has no default: it is [None] when the
    option is absent (line 39). *)
Record Args := mkArgs {
  arg_nz : Z;
  arg_nx : option Z;
  arg_aspect : Z;
  arg_Rayleigh : Q;
  arg_niter : Q            (* float(args['--niter']) *)
}.

(** Python's [int(x)] on a float: truncation towards zero. *)
Definition int_of_float (x : Q) : Z := Z.quot (Qnum x) (Z.pos (Qden x)).

Definition nz (a : Args) : Z := arg_nz a.

(** Lines 37-42. *)
Definition nx (a : Args) : Z :=
  match arg_nx a with
  | None => (nz a * arg_aspect a)%Z
  | Some v => v
  end.

(** Line 123: [niter = int(float(args['--niter']))+1]. *)
Definition niter (a : Args) : Z := (int_of_float (arg_niter a) + 1)%Z.

(** The three stop thresholds of the solver (lines 125-127). *)
Record StopThresholds := mkStops {
  stop_sim_time : Q;
  stop_wall_time : Q;
  stop_iteration : Z
}.

Definition integration_parameters (a : Args) : StopThresholds :=
  {| stop_sim_time := 50;
     stop_wall_time := 30 * 60;
     stop_iteration := niter a |}.

(** Lines 121 and 129: [dt = 1e-3] and [max_dt = 0.5]. *)
Definition initial_dt : Q := 1 # 1000.
Definition max_dt : Q := 1 # 2.

(* ===================================================================== *)
(** ** Exceptions, output and the external collaborators *)
(* ===================================================================== *)

Inductive exn :=
| NameError (name : string)
| ZeroDivisionError
| External (what : string).   (* anything raised inside the Dedalus calls *)

(** What a call into the library does: it returns or it raises. *)
Inductive answer (A : Type) :=
| Returns (a : A)
| Raises (e : exn).
Arguments Returns {A} a.
Arguments Raises {A} e.

(** The lines the script writes, in order: [logger] records and the
    [print]s of rank 0.  Numbers are kept as numbers, not formatted. *)
Inductive event :=
| LogStartingLoop                                   (* line 137 *)
| LogIteration (iteration : Z) (sim_time dt : Q)    (* lines 142-143 *)
| LogExceptionRaised                                (* line 148 *)
| LogIterations (iteration : Z)                     (* line 152 *)
| LogSimEndTime (sim_time : Q)                      (* line 153 *)
| LogRunTimeSec (sec : Q)                           (* line 154 *)
| LogRunTimeCpuHr (hours : Q)                       (* line 155 *)
| PrintRule                                         (* lines 161, 180 *)
| PrintStartupTime (t : Q)                          (* line 166 *)
| PrintMainLoopTime (t : Q)                         (* line 167 *)
| PrintTotalTime (t : Q)                            (* line 168 *)
| PrintIterations (iteration : Z)                   (* line 169 *)
| PrintLoopSecIter (t : Q)                          (* line 170 *)
| PrintAverageDt (t : Q)                            (* line 171 *)
| PrintHeader                                       (* line 172 *)
| PrintScaling (n_cores nx nz : Z)
               (startup main_loop per_iter per_iter_grid cost : Q). (* 173-179 *)

(** The objects the script only calls: solver, controller, clock and the
    process grid, over one shared mutable world.  [CFL.compute_dt] takes no
    argument (line 140); [solver.step] takes the requested step and returns
    a step (line 141). *)
Record Collaborators := mkCollaborators {
  World : Type;
  solver_ok : World -> bool;                           (* solver.ok *)
  solver_iteration : World -> Z;                       (* solver.iteration *)
  solver_sim_time : World -> Q;                        (* solver.sim_time *)
  CFL_compute_dt : World -> answer Q * World;          (* CFL.compute_dt() *)
  solver_step : World -> Q -> answer Q * World;        (* solver.step(dt) *)
  time_time : World -> Q * World;                      (* time.time() *)
  comm_size : World -> Z;               (* domain.dist.comm_cart.size *)
  rank : World -> Z                     (* domain.distributor.rank *)
}.

(* ===================================================================== *)
(** ** The main block (lines 136-180) *)
(* ===================================================================== *)

Section Main.

Variable C : Collaborators.
Variable a : Args.
Variable initial_time : Q.       (* line 32 *)

(** The module-level names the main block reads and writes.  [start_time]
    is bound only by line 145. *)
Record Env := mkEnv {
  world : World C;
  dt : Q;
  first_loop : bool;
  start_time : option Q;
  out : list event
}.

Definition set_world (w : World C) (st : Env) : Env :=
  mkEnv w (dt st) (first_loop st) (start_time st) (out st).
Definition set_dt (d : Q) (st : Env) : Env :=
  mkEnv (world st) d (first_loop st) (start_time st) (out st).
Definition set_first_loop (b : bool) (st : Env) : Env :=
  mkEnv (world st) (dt st) b (start_time st) (out st).
Definition set_start_time (t : Q) (st : Env) : Env :=
  mkEnv (world st) (dt st) (first_loop st) (Some t) (out st).
Definition emit (e : event) (st : Env) : Env :=
  mkEnv (world st) (dt st) (first_loop st) (start_time st) (out st ++ [e]).

(** Outcome of a piece of the script: it falls through, it raises, or the
    model's fuel for the [while] ran out before the loop ended. *)
Inductive result (A : Type) :=
| Ok (x : A) (st : Env)
| Raise (e : exn) (st : Env)
| OutOfFuel.
Arguments Ok {A} x st.
Arguments Raise {A} e st.
Arguments OutOfFuel {A}.

Definition M (A : Type) : Type := Env -> result A.

Definition ret {A} (x : A) : M A := fun st => Ok x st.

Definition bind {A B} (m : M A) (k : A -> M B) : M B :=
  fun st =>
    match m st with
    | Ok x st' => k x st'
    | Raise e st' => Raise e st'
    | OutOfFuel => OutOfFuel
    end.

Notation "x <- m ;; k" := (bind m (fun x => k))
  (at level 61, m at next level, right associativity).
Notation "m ;;; k" := (bind m (fun _ => k))
  (at level 61, right associativity).

Definition raise {A} (e : exn) : M A := fun st => Raise e st.
Definition modify (f : Env -> Env) : M unit := fun st => Ok tt (f st).
Definition reads {A} (f : Env -> A) : M A := fun st => Ok (f st) st.

(** A call into the library: the world changes whether it returns or not. *)
Definition call {A} (f : World C -> answer A * World C) : M A :=
  fun st =>
    match f (world st) with
    | (Returns x, w) => Ok x (set_world w st)
    | (Raises e, w) => Raise e (set_world w st)
    end.

Definition now : M Q :=
  fun st => let (t, w) := time_time C (world st) in Ok t (set_world w st).

(** Reading the name [start_time]. *)
Definition read_start_time : M Q :=
  fun st =>
    match start_time st with
    | Some t => Ok t st
    | None => Raise (NameError "start_time") st
    end.

(** Python's [x / y]. *)
Definition py_div (x y : Q) : M Q :=
  if Qeq_bool y 0 then raise ZeroDivisionError else ret (x / y).

(** Lines 140-146: the body of the [while]. *)
Definition loop_body : M unit :=
  requested <- call (CFL_compute_dt C) ;;
  modify (set_dt requested) ;;;
  d <- reads dt ;;
  used <- call (fun w => solver_step C w d) ;;
  modify (set_dt used) ;;;
  d <- reads dt ;;
  it <- reads (fun st => solver_iteration C (world st)) ;;
  t <- reads (fun st => solver_sim_time C (world st)) ;;
  modify (emit (LogIteration it t d)) ;;;
  fl <- reads first_loop ;;
  if fl then
    t0 <- now ;;
    modify (set_start_time t0) ;;;
    modify (set_first_loop false)
  else ret tt.

(** Line 139: [while solver.ok]. *)
Fixpoint while_ok (fuel : nat) : M unit :=
  fun st =>
    match fuel with
    | O => OutOfFuel
    | S fuel' =>
        if solver_ok C (world st)
        then (loop_body ;;; while_ok fuel') st
        else Ok tt st
    end.

(** Lines 137-146: the [try] suite. *)
Definition try_suite (fuel : nat) : M unit :=
  modify (emit LogStartingLoop) ;;;
  modify (set_first_loop true) ;;;
  while_ok fuel.

(** Lines 157-180: what rank 0 prints. *)
Definition print_statistics (end_time : Q) : M unit :=
  N_TOTAL_CPU <- reads (fun st => comm_size C (world st)) ;;
  modify (emit PrintRule) ;;;
  let total_time := end_time - initial_time in
  st0 <- read_start_time ;;
  let main_loop_time := end_time - st0 in
  st1 <- read_start_time ;;
  let startup_time := st1 - initial_time in
  it <- reads (fun st => solver_iteration C (world st)) ;;
  let n_steps := (it - 1)%Z in
  modify (emit (PrintStartupTime startup_time)) ;;;
  modify (emit (PrintMainLoopTime main_loop_time)) ;;;
  modify (emit (PrintTotalTime total_time)) ;;;
  it' <- reads (fun st => solver_iteration C (world st)) ;;
  modify (emit (PrintIterations it')) ;;;
  it'' <- reads (fun st => solver_iteration C (world st)) ;;
  per_iter <- py_div main_loop_time (inject_Z it'') ;;
  modify (emit (PrintLoopSecIter per_iter)) ;;;
  t <- reads (fun st => solver_sim_time C (world st)) ;;
  avg <- py_div t (inject_Z n_steps) ;;
  modify (emit (PrintAverageDt avg)) ;;;
  modify (emit PrintHeader) ;;;
  f3 <- py_div main_loop_time (inject_Z n_steps) ;;
  f4a <- py_div main_loop_time (inject_Z n_steps) ;;
  f4 <- py_div f4a (inject_Z (nx a * nz a)) ;;
  f5a <- py_div (inject_Z N_TOTAL_CPU * main_loop_time) (inject_Z n_steps) ;;
  f5 <- py_div f5a (inject_Z (nx a * nz a)) ;;
  modify (emit (PrintScaling N_TOTAL_CPU (nx a) (nz a)
                             startup_time main_loop_time f3 f4 f5)) ;;;
  modify (emit PrintRule).

(** Lines 151-180: the [finally] suite. *)
Definition finally_suite : M unit :=
  end_time <- now ;;
  it <- reads (fun st => solver_iteration C (world st)) ;;
  modify (emit (LogIterations it)) ;;;
  t <- reads (fun st => solver_sim_time C (world st)) ;;
  modify (emit (LogSimEndTime t)) ;;;
  st0 <- read_start_time ;;
  modify (emit (LogRunTimeSec (end_time - st0))) ;;;
  st1 <- read_start_time ;;
  size <- reads (fun st => comm_size C (world st)) ;;
  modify (emit (LogRunTimeCpuHr ((end_time - st1) / 60 / 60 * inject_Z size))) ;;;
  r <- reads (fun st => rank C (world st)) ;;
  if (r =? 0)%Z then print_statistics end_time else ret tt.

(** Lines 147-149: the bare [except] logs and re-raises. *)
Definition except_suite : M unit :=
  modify (emit LogExceptionRaised).

(** Python's [try: ... except: ...; raise  finally: ...].  The [finally]
    suite runs on both paths; an exception raised inside it replaces the
    one in flight. *)
Definition main_block (fuel : nat) : M unit :=
  fun st =>
    match try_suite fuel st with
    | Ok _ st1 => finally_suite st1
    | Raise e st1 =>
        match except_suite st1 with
        | Ok _ st2 =>
            match finally_suite st2 with
            | Ok _ st3 => Raise e st3
            | other => other
            end
        | Raise e' st2 =>
            match finally_suite st2 with
            | Ok _ st3 => Raise e' st3
            | other => other
            end
        | OutOfFuel => OutOfFuel
        end
    | OutOfFuel => OutOfFuel
    end.

(** The environment when line 136 is reached: [dt = 1e-3] from line 121,
    [first_loop] and [start_time] not bound yet, nothing written. *)
Definition initial_env (w : World C) : Env :=
  mkEnv w initial_dt false None [].

(** The environment when the [while] is first tested, after lines
    137-138. *)
Definition loop_entry (w : World C) : Env :=
  set_first_loop true (emit LogStartingLoop (initial_env w)).

(** [k] passes through the body, one after the other. *)
Fixpoint iterate_body (k : nat) : M unit :=
  match k with
  | O => ret tt
  | S k' => loop_body ;;; iterate_body k'
  end.

Definition first_passes (k : nat) (w : World C) : result unit :=
  iterate_body k (loop_entry w).

End Main.

Arguments Ok {C A} x st.
Arguments Raise {C A} e st.
Arguments OutOfFuel {C A}.
Arguments world {C} e.
Arguments dt {C} e.
Arguments first_loop {C} e.
Arguments start_time {C} e.
Arguments out {C} e.

(* ===================================================================== *)
(** ** The initial condition (lines 103-112) *)
(* ===================================================================== *)

Section InitialCondition.

(** [gauss seed k]: the [k]-th deviate a [RandomState(seed)] draws.
    [standard_normal] fills an array of the asked shape with the first
    deviates in C (row-major) order. *)
Variable gauss : Z -> nat -> Q.

Definition standard_normal (seed : Z) (gshape : nat * nat) : list (list Q) :=
  map (fun i => map (fun j => gauss seed (i * snd gshape + j)%nat)
                    (seq 0 (snd gshape)))
      (seq 0 (fst gshape)).

(** A Python [slice(start, stop)] and [l[start:stop]] on it. *)
Definition slice : Type := (nat * nat)%type.

Definition take_slice {A} (s : slice) (l : list A) : list A :=
  firstn (snd s - fst s) (skipn (fst s) l).

(** [m[slices]] for a tuple of two slices. *)
Definition index_slices {A} (ss : slice * slice) (m : list (list A))
  : list (list A) :=
  map (take_slice (snd ss)) (take_slice (fst ss) m).

(** Lines 106-107. *)
Definition noise (gshape : nat * nat) (slices : slice * slice)
  : list (list Q) :=
  index_slices slices (standard_normal 42 gshape).

(** Lines 51, 75, 110: [Lz = 1.], [F = 1], [zb, zt = z_basis.interval]. *)
Definition Lz : Q := 1.
Definition F : Q := 1.
Definition zb : Q := 0.
Definition zt : Q := Lz.

(** Line 111, with [z] the local grid of the last axis broadcast along
    the rows. *)
Definition pert (noise : list (list Q)) (z : list Q) : list (list Q) :=
  map (fun row =>
         map (fun nz => (1 # 1000) * fst nz * (zt - snd nz) * (snd nz - zb))
             (combine row z))
      noise.

(** Line 112: [T['g'] = F * pert]. *)
Definition T_g (noise : list (list Q)) (z : list Q) : list (list Q) :=
  map (map (Qmult F)) (pert noise z).

(** Reading an array at a pair of indices. *)
Definition at2 {A} (m : list (list A)) (i j : nat) : option A :=
  match nth_error m i with
  | Some row => nth_error row j
  | None => None
  end.





End InitialCondition.

(* ===================================================================== *)
(** ** The collaborators as the specification describes them *)
(* ===================================================================== *)

(** Modelled from the spec: the step-size controller.  The script uses
    [dedalus.extras.flow_tools.CFL], whose code is not part of the
    repository; the state and [compute_dt] below follow section 3
    (StepSizeState) and section 4.2 of the specification.  The reduced
    global maximum of the speed-to-spacing ratio is an input ([None] when
    it is not finite), and the choice at an exact tie with the threshold,
    which the specification leaves open, is the parameter [hold_on_tie]. *)
Record StepSizeState := mkStepSizeState {
  current_dt : Q;
  safety : Q;
  max_change : Q;
  min_change : Q;
  absolute_max_dt : Q;
  cadence : Z;
  threshold : Q
}.

Definition set_current_dt (d : Q) (s : StepSizeState) : StepSizeState :=
  mkStepSizeState d (safety s) (max_change s) (min_change s)
                  (absolute_max_dt s) (cadence s) (threshold s).

Definition Qlt_bool (x y : Q) : bool := negb (Qle_bool y x).

Definition raw_candidate (s : StepSizeState) (ratio : Q) : Q :=
  if Qeq_bool ratio 0 then absolute_max_dt s else safety s / ratio.

Definition clip (s : StepSizeState) (x : Q) : Q :=
  Qmax 0 (Qmin x (absolute_max_dt s)).

Definition rate_limit (s : StepSizeState) (previous_dt x : Q) : Q :=
  Qmax (min_change s * previous_dt) (Qmin x (max_change s * previous_dt)).

Definition relative_change (candidate previous_dt : Q) : Q :=
  Qabs (candidate - previous_dt) / previous_dt.

Definition held (hold_on_tie : bool) (s : StepSizeState)
           (candidate previous_dt : Q) : bool :=
  if hold_on_tie
  then Qle_bool (relative_change candidate previous_dt) (threshold s)
  else Qlt_bool (relative_change candidate previous_dt) (threshold s).

Definition compute_dt (hold_on_tie : bool) (s : StepSizeState)
           (iteration : Z) (ratio : option Q) : answer Q * StepSizeState :=
  if negb (iteration mod cadence s =? 0)%Z then (Returns (current_dt s), s)
  else
    match ratio with
    | None => (Raises (External "non-finite velocity"), s)
    | Some r =>
        let candidate :=
          rate_limit s (current_dt s) (clip s (raw_candidate s r)) in
        if held hold_on_tie s candidate (current_dt s)
        then (Returns (current_dt s), s)
        else (Returns candidate, set_current_dt candidate s)
    end.

(** Lines 131-132: the controller as the script builds it. *)
Definition CFL : StepSizeState :=
  {| current_dt := initial_dt;
     cadence := 1;
     safety := (8 # 10) / 2;
     max_change := 3 # 2;
     min_change := 1 # 2;
     absolute_max_dt := max_dt;
     threshold := 5 # 100 |}.

(** The controller driven through a sequence of calls, each with the
    iteration count and the ratio it sees: the pairs (previous step,
    returned step) of the calls that return, up to the first failure. *)
Fixpoint controller_run (hold_on_tie : bool) (s : StepSizeState)
         (calls : list (Z * option Q)) : list (Q * Q) :=
  match calls with
  | [] => []
  | (it, ratio) :: rest =>
      match compute_dt hold_on_tie s it ratio with
      | (Returns d, s') =>
          (current_dt s, d) :: controller_run hold_on_tie s' rest
      | (Raises _, _) => []
      end
  end.

(** Modelled from the spec: the solver's side of the loop.  The script
    uses the solver of the Dedalus library; what [solver.step] and
    [solver.ok] do is taken from section 4.3 of the specification: the
    advance returns the step actually used, the iteration counter goes up
    by one, the simulation time by the step used, and the run goes on
    until the iteration count, the simulation time or the elapsed wall
    clock is at or above its threshold. *)
Record SpecWorld := mkSpecWorld {
  controller : StepSizeState;
  w_iteration : Z;
  w_sim_time : Q;
  w_clock : Q;              (* what time.time() reads now *)
  w_wall_start : Q;         (* the clock when the solver was built *)
  w_stops : StopThresholds;
  w_size : Z;
  w_rank : Z
}.

Section SpecCollaborators.

Variable hold_on_tie : bool.
(** The reduced ratio the controller sees at a given iteration count. *)
Variable ratio_at : Z -> option Q.
(** What the advance does at a given iteration count with a requested
    step: the step it uses, or a failure. *)
Variable used_at : Z -> Q -> answer Q.
(** Wall-clock seconds the advance takes at a given iteration count. *)
Variable cost_at : Z -> Q.

Definition spec_ok (w : SpecWorld) : bool :=
  negb ((stop_iteration (w_stops w) <=? w_iteration w)%Z
        || Qle_bool (stop_sim_time (w_stops w)) (w_sim_time w)
        || Qle_bool (stop_wall_time (w_stops w)) (w_clock w - w_wall_start w)).

Definition spec_compute_dt (w : SpecWorld) : answer Q * SpecWorld :=
  let (r, s') :=
    compute_dt hold_on_tie (controller w) (w_iteration w)
               (ratio_at (w_iteration w)) in
  (r, mkSpecWorld s' (w_iteration w) (w_sim_time w) (w_clock w)
                  (w_wall_start w) (w_stops w) (w_size w) (w_rank w)).

Definition spec_step (w : SpecWorld) (requested : Q) : answer Q * SpecWorld :=
  match used_at (w_iteration w) requested with
  | Returns used =>
      (Returns used,
       mkSpecWorld (controller w) (w_iteration w + 1) (w_sim_time w + used)
                   (w_clock w + cost_at (w_iteration w))
                   (w_wall_start w) (w_stops w) (w_size w) (w_rank w))
  | Raises e =>
      (Raises e,
       mkSpecWorld (controller w) (w_iteration w) (w_sim_time w)
                   (w_clock w + cost_at (w_iteration w))
                   (w_wall_start w) (w_stops w) (w_size w) (w_rank w))
  end.

Definition spec_collaborators : Collaborators :=
  {| World := SpecWorld;
     solver_ok := spec_ok;
     solver_iteration := w_iteration;
     solver_sim_time := w_sim_time;
     CFL_compute_dt := spec_compute_dt;
     solver_step := spec_step;
     time_time := fun w => (w_clock w, w);
     comm_size := w_size;
     rank := w_rank |}.

End SpecCollaborators.

(** The world when the loop is entered: the controller of lines 131-132,
    the thresholds of lines 125-127, nothing advanced yet. *)
Definition spec_world (a : Args) (clock : Q) (size rk : Z) : SpecWorld :=
  {| controller := CFL;
     w_iteration := 0;
     w_sim_time := 0;
     w_clock := clock;
     w_wall_start := clock;
     w_stops := integration_parameters a;
     w_size := size;
     w_rank := rk |}.

(* ===================================================================== *)
(** ** Concrete inputs used by the examples *)
(* ===================================================================== *)

(** A stand-in for the deviates of a seed, for running the initial
    condition on a small grid. *)
Definition sample_deviates (seed : Z) (k : nat) : Q :=
  inject_Z (Z.of_nat k + 1) - inject_Z seed / 8.

(** Oracles for small runs of the loop against the collaborators of the
    specification: a fluid at rest, a solver that uses the step it is
    asked for, one that fails at a given iteration count, one that trims
    every step, and an advance that takes a fixed number of seconds. *)
Definition at_rest (k : Z) : option Q := Some 0.
Definition honest (k : Z) (requested : Q) : answer Q := Returns requested.
Definition blows_up_at (k0 k : Z) (requested : Q) : answer Q :=
  if (k =? k0)%Z then Raises (External "non-finite field")
  else Returns requested.
Definition seconds (s : Q) (k : Z) : Q := s.

(** A 64 x 32 grid with [--niter] given. *)
Definition small_run (n : Q) : Args :=
  mkArgs 32 (Some 64%Z) 2 1000000 n.

(** Four sets of collaborators for a run seen from rank 0 of four
    workers: [quiet] uses the step asked for at one second per advance,
    [doomed] fails in its first advance, [slow] takes 1000 seconds per
    advance, and [trimmed] cuts every step to 1e-4. *)
Definition quiet : Collaborators :=
  spec_collaborators true at_rest honest (seconds 1).
Definition doomed : Collaborators :=
  spec_collaborators true at_rest (blows_up_at 0) (seconds 1).
Definition slow : Collaborators :=
  spec_collaborators true at_rest honest (seconds 1000).

(** The world a run with [--niter n] enters the main block with, the
    clock reading 100. *)
Definition entry (n : Q) : SpecWorld := spec_world (small_run n) 100 4 0.

(** Whether a piece of the script fell through. *)
Definition fell_through {C : Collaborators} {A : Type} (r : result C A)
  : bool :=
  match r with
  | Ok _ _ => true
  | _ => false
  end.

(** The exception a piece of the script ended in, if it did. *)
Definition failure_of {C : Collaborators} {A : Type} (r : result C A)
  : option exn :=
  match r with
  | Raise e _ => Some e
  | _ => None
  end.

(** A solver that fails in its third advance, and the world of a run seen
    from another rank. *)
Definition late : Collaborators :=
  spec_collaborators true at_rest (blows_up_at 2) (seconds 1).

Definition entry_on (rk : Z) (n : Q) : SpecWorld :=
  spec_world (small_run n) 100 4 rk.

(** The environment a piece of the script leaves, or [fallback]. *)
Definition env_of {C : Collaborators} {A : Type}
           (r : result C A) (fallback : Env C) : Env C :=
  match r with
  | Ok _ st => st
  | Raise _ st => st
  | OutOfFuel => fallback
  end.

(** The values of the [loop sec/iter] lines of an output, and the
    per-iteration fields of its [scaling:] lines. *)
Definition loop_sec_iter_lines (l : list event) : list Q :=
  flat_map (fun e => match e with
                     | PrintLoopSecIter t => [t]
                     | _ => []
                     end) l.

Definition scaling_per_iter_fields (l : list event) : list Q :=
  flat_map (fun e => match e with
                     | PrintScaling _ _ _ _ _ per_iter _ _ => [per_iter]
                     | _ => []
                     end) l.

(** How many iteration records a log holds. *)
Definition is_iteration_record (e : event) : bool :=
  match e with
  | LogIteration _ _ _ => true
  | _ => false
  end.

Definition iterations_logged (l : list event) : nat :=
  List.length (filter is_iteration_record l).

(** A controller whose current step is positive and within the absolute
    maximum, with change ratios on either side of 1. *)
Definition well_formed (s : StepSizeState) : Prop :=
  0 < current_dt s /\ current_dt s <= absolute_max_dt s
  /\ 0 < min_change s /\ min_change s <= 1 /\ 1 <= max_change s.

(** Against the collaborators of the specification: the first [k] passes
    return and leave the simulation time and the elapsed wall clock below
    their thresholds. *)
Definition clear_after (C : Collaborators) (sim_time elapsed : World C -> Q)
           (stops : World C -> StopThresholds) (k : nat) (w : World C)
  : bool :=
  match first_passes C k w with
  | Ok _ st =>
      Qlt_bool (sim_time (world st)) (stop_sim_time (stops (world st)))
      && Qlt_bool (elapsed (world st)) (stop_wall_time (stops (world st)))
  | _ => false
  end.

Definition returns_after (C : Collaborators) (k : nat) (w : World C) : bool :=
  match first_passes C k w with
  | Ok _ _ => true
  | _ => false
  end.

Definition elapsed_wall (w : SpecWorld) : Q := w_clock w - w_wall_start w.

(** Whether a line is one of the [print]s of rank 0. *)
Definition is_print (e : event) : bool :=
  match e with
  | PrintRule | PrintStartupTime _ | PrintMainLoopTime _ | PrintTotalTime _
  | PrintIterations _ | PrintLoopSecIter _ | PrintAverageDt _ | PrintHeader
  | PrintScaling _ _ _ _ _ _ _ _ => true
  | _ => false
  end.

(** Consecutive slices of the given sizes, the first one starting at
    [start]: how one axis is cut among the workers. *)
Fixpoint blocks (start : nat) (sizes : list nat) : list slice :=
  match sizes with
  | [] => []
  | s :: rest => (start, (start + s)%nat) :: blocks (start + s) rest
  end.

(** The lines the [finally] suite logs before rank 0 prints
    (lines 152-155). *)
Definition final_log (it : Z) (sim te ts : Q) (size : Z) : list event :=
  [LogIterations it; LogSimEndTime sim; LogRunTimeSec (te - ts);
   LogRunTimeCpuHr ((te - ts) / 60 / 60 * inject_Z size)].

(* ===================================================================== *)
(** ** Stop thresholds *)
(* ===================================================================== *)

(** C10.  Whatever the command line, the simulation-time threshold is 50
    and the wall-clock threshold is 1800 seconds; the iteration threshold
    is [int(float(--niter)) + 1], the only one of the three that varies
    with the command line. *)
Theorem only_iteration_threshold_is_configurable :
  (forall a : Args,
      stop_sim_time (integration_parameters a) = 50
      /\ stop_wall_time (integration_parameters a) = 1800
      /\ stop_iteration (integration_parameters a)
         = (int_of_float (arg_niter a) + 1)%Z)
  /\ (forall a b : Args,
         arg_niter a = arg_niter b ->
         integration_parameters a = integration_parameters b)
  /\ (exists a b : Args,
         stop_iteration (integration_parameters a)
         <> stop_iteration (integration_parameters b)).
Proof.
  split; [| split].
  - intros a. repeat split.
  - intros a b H. unfold integration_parameters, niter. now rewrite H.
  - exists (mkArgs 128 None 2 1000000 100), (mkArgs 128 None 2 1000000 10).
    vm_compute. discriminate.
Qed.

(* ===================================================================== *)
(** ** The initial condition *)
(* ===================================================================== *)

Section InitialConditionFacts.

Variable gauss : Z -> nat -> Q.








Lemma nth_error_combine {A B} (l : list A) (l' : list B) j :
  nth_error (combine l l') j
  = match nth_error l j, nth_error l' j with
    | Some x, Some y => Some (x, y)
    | _, _ => None
    end.
Proof.
  revert l' j. induction l as [|x l IH]; intros [|y l'] [|j];
    cbn [combine nth_error]; try reflexivity.
  - now destruct (nth_error l j).
  - apply IH.
Qed.

(** An entry of [T['g']] is the envelope times the noise entry. *)
Lemma at2_T_g (nse : list (list Q)) (z : list Q) i j v zj :
  at2 (T_g nse z) i j = Some v ->
  nth_error z j = Some zj ->
  exists n, at2 nse i j = Some n
            /\ v = F * ((1 # 1000) * n * (zt - zj) * (zj - zb)).
Proof.
  unfold at2, T_g, pert. intros H Hz.
  rewrite map_map, nth_error_map in H.
  destruct (nth_error nse i) as [row|]; cbn [option_map] in H;
    [| discriminate].
  rewrite map_map, nth_error_map, nth_error_combine, Hz in H.
  destruct (nth_error row j) as [n|]; cbn [option_map fst snd] in H;
    [| discriminate].
  exists n. split; [reflexivity |]. now inversion H.
Qed.

(** C8.  Wherever the grid of the bounded dimension sits on one of the two
    walls, [T['g']] is 0, for any deviates, any shape, any slices and any
    row. *)
Theorem field_vanishes_at_walls
        (gshape : nat * nat) (slices : slice * slice) (z : list Q)
        (i j : nat) (v zj : Q) :
  at2 (T_g (noise gauss gshape slices) z) i j = Some v ->
  nth_error z j = Some zj ->
  zj == zb \/ zj == zt ->
  v == 0.
Proof.
  intros H Hz Hwall.
  destruct (at2_T_g _ _ _ _ _ _ H Hz) as (n & _ & ->).
  unfold F, zt, zb, Lz in *.
  destruct Hwall as [E | E]; rewrite E; ring.
Qed.

End InitialConditionFacts.


Lemma field_vanishes_at_walls_witness :
  exists v,
    at2 (T_g (noise sample_deviates (2, 3)%nat ((0, 2), (0, 3))%nat)
             [0; 1 # 2; 1]) 1 2 = Some v
    /\ v == 0.
Proof.
  eexists. split.
  - reflexivity.
  - apply (field_vanishes_at_walls sample_deviates (2, 3)%nat
             ((0, 2), (0, 3))%nat [0; 1 # 2; 1] 1 2 _ 1).
    + reflexivity.
    + reflexivity.
    + right. reflexivity.
Defined.

(* ===================================================================== *)
(** ** The main block *)
(* ===================================================================== *)

(** Unfolds the plumbing of the script monad. *)
Ltac simpl_env := cbn [world dt first_loop start_time out fst snd] in *.

Ltac use_facts :=
  repeat (simpl_env;
          match goal with
          | H : ?x = _ |- context [?x] => rewrite H
          end);
  simpl_env.

Ltac unfold_script :=
  unfold bind, call, now, reads, modify, ret, raise, read_start_time,
    emit, set_world, set_dt, set_first_loop, set_start_time in *;
  simpl_env.

(** Finds which line of a written-out report a membership is about. *)
Ltac pick_line :=
  repeat match goal with
         | H : In _ (_ :: _) |- _ =>
             apply in_inv in H; destruct H as [H | H];
             [first [discriminate H | inversion H; subst; clear H] |]
         | H : In _ [] |- _ => destruct H
         end.

Section MainFacts.

Variable C : Collaborators.
Variable a : Args.
Variable initial_time : Q.

Lemma Qeq_bool_inject_Z (z : Z) : Qeq_bool (inject_Z z) 0 = (z =? 0)%Z.
Proof.
  unfold Qeq_bool, inject_Z. cbn [Qnum Qden].
  rewrite Z.mul_1_r. cbn. destruct z; reflexivity.
Qed.

Lemma py_div_nonzero (x : Q) (z : Z) (st : Env C) :
  z <> 0%Z -> py_div C x (inject_Z z) st = Ok (x / inject_Z z) st.
Proof.
  intros H. unfold py_div. rewrite Qeq_bool_inject_Z.
  apply Z.eqb_neq in H. now rewrite H.
Qed.

Lemma py_div_zero (x : Q) (st : Env C) :
  py_div C x (inject_Z 0) st = Raise ZeroDivisionError st.
Proof. reflexivity. Qed.

(** The [finally] suite when [start_time] was never bound: it logs the
    iteration count and the simulation time and stops at line 154. *)
Lemma finally_suite_unbound (st : Env C) :
  start_time st = None ->
  finally_suite C a initial_time st
  = let w := snd (time_time C (world st)) in
    Raise (NameError "start_time")
          (mkEnv C w (dt st) (first_loop st) None
                 (out st ++ [LogIterations (solver_iteration C w);
                             LogSimEndTime (solver_sim_time C w)])).
Proof.
  intros H. unfold finally_suite. unfold_script.
  destruct (time_time C (world st)) as [te w]. simpl_env. rewrite H.
  now rewrite <- app_assoc.
Qed.

(** On the other ranks the [finally] suite only logs. *)
Lemma finally_suite_other_rank (st : Env C) ts te w :
  start_time st = Some ts ->
  time_time C (world st) = (te, w) ->
  rank C w <> 0%Z ->
  finally_suite C a initial_time st
  = Ok tt (mkEnv C w (dt st) (first_loop st) (Some ts)
                 (out st ++ final_log (solver_iteration C w)
                      (solver_sim_time C w) te ts (comm_size C w))).
Proof.
  intros Hs Ht Hr. unfold finally_suite. unfold_script.
  apply Z.eqb_neq in Hr. use_facts.
  unfold final_log. now rewrite <- !app_assoc.
Qed.

(** With one iteration counted, rank 0 gets as far as the
    [loop sec/iter] line and then divides by [n_steps = 0]. *)
Lemma finally_suite_one_iteration (st : Env C) ts te w :
  start_time st = Some ts ->
  time_time C (world st) = (te, w) ->
  rank C w = 0%Z ->
  solver_iteration C w = 1%Z ->
  finally_suite C a initial_time st
  = Raise ZeroDivisionError
          (mkEnv C w (dt st) (first_loop st) (Some ts)
                 (out st
                  ++ final_log 1 (solver_sim_time C w) te ts (comm_size C w)
                  ++ [PrintRule;
                      PrintStartupTime (ts - initial_time);
                      PrintMainLoopTime (te - ts);
                      PrintTotalTime (te - initial_time);
                      PrintIterations 1;
                      PrintLoopSecIter ((te - ts) / inject_Z 1)])).
Proof.
  intros Hs Ht Hr Hi. unfold finally_suite, print_statistics, py_div.
  unfold_script. use_facts. cbn [Z.eqb]. use_facts.
  cbn [Z.sub Z.add Z.opp Z.pos_sub].
  replace (Qeq_bool (inject_Z 1) 0) with false by reflexivity.
  replace (Qeq_bool (inject_Z 0) 0) with true by reflexivity.
  simpl_env. unfold final_log. now rewrite <- !app_assoc.
Qed.

(** With at least two iterations counted and a non-empty grid, rank 0
    prints the whole report. *)
Lemma finally_suite_reports (st : Env C) ts te w :
  start_time st = Some ts ->
  time_time C (world st) = (te, w) ->
  rank C w = 0%Z ->
  solver_iteration C w <> 0%Z ->
  solver_iteration C w <> 1%Z ->
  (nx a * nz a)%Z <> 0%Z ->
  finally_suite C a initial_time st
  = let it := solver_iteration C w in
    let n_steps := inject_Z (it - 1) in
    let grid := inject_Z (nx a * nz a) in
    let size := comm_size C w in
    Ok tt
       (mkEnv C w (dt st) (first_loop st) (Some ts)
              (out st
               ++ final_log it (solver_sim_time C w) te ts size
               ++ [PrintRule;
                   PrintStartupTime (ts - initial_time);
                   PrintMainLoopTime (te - ts);
                   PrintTotalTime (te - initial_time);
                   PrintIterations it;
                   PrintLoopSecIter ((te - ts) / inject_Z it);
                   PrintAverageDt (solver_sim_time C w / n_steps);
                   PrintHeader;
                   PrintScaling size (nx a) (nz a)
                                (ts - initial_time) (te - ts)
                                ((te - ts) / n_steps)
                                ((te - ts) / n_steps / grid)
                                (inject_Z size * (te - ts) / n_steps / grid);
                   PrintRule])).
Proof.
  intros Hs Ht Hr H0 H1 Hg. unfold finally_suite, print_statistics, py_div.
  unfold_script. use_facts. cbn [Z.eqb]. use_facts.
  rewrite !Qeq_bool_inject_Z.
  apply Z.eqb_neq in H0, Hg.
  assert (H1' : (solver_iteration C w - 1 =? 0)%Z = false)
    by (apply Z.eqb_neq; lia).
  use_facts. cbn zeta.
  unfold final_log. now rewrite <- !app_assoc.
Qed.

(** *** One pass through the body of the loop *)

Lemma loop_body_controller_fails (st : Env C) e w' :
  CFL_compute_dt C (world st) = (Raises e, w') ->
  loop_body C st
  = Raise e (mkEnv C w' (dt st) (first_loop st) (start_time st) (out st)).
Proof.
  intros H. unfold loop_body. unfold_script. now use_facts.
Qed.

Lemma loop_body_solver_fails (st : Env C) requested w1 e w' :
  CFL_compute_dt C (world st) = (Returns requested, w1) ->
  solver_step C w1 requested = (Raises e, w') ->
  loop_body C st
  = Raise e (mkEnv C w' requested (first_loop st) (start_time st) (out st)).
Proof.
  intros H1 H2. unfold loop_body. unfold_script. now use_facts.
Qed.

Lemma loop_body_returns (st : Env C) requested w1 used w2 :
  CFL_compute_dt C (world st) = (Returns requested, w1) ->
  solver_step C w1 requested = (Returns used, w2) ->
  loop_body C st
  = let record :=
      LogIteration (solver_iteration C w2) (solver_sim_time C w2) used in
    if first_loop st
    then Ok tt (mkEnv C (snd (time_time C w2)) used false
                      (Some (fst (time_time C w2))) (out st ++ [record]))
    else Ok tt (mkEnv C w2 used false (start_time st) (out st ++ [record])).
Proof.
  intros H1 H2. unfold loop_body. unfold_script. use_facts.
  destruct (first_loop st) eqn:E; cbn zeta; use_facts.
  - destruct (time_time C w2) as [t0 w3]. now simpl_env.
  - reflexivity.
Qed.

(** C1 (what the code does when the first iteration fails).  When the
    controller or the advance raises on the first pass through the loop,
    the [except] clause logs the failure and the [finally] suite starts,
    but [start_time] was never bound: the suite stops at line 154 with a
    [NameError], nothing of the statistics is printed, and the caller
    receives that [NameError]. *)
Theorem first_iteration_failure_loses_report
        (w : World C) (fuel : nat) (e : exn) (w' : World C) :
  solver_ok C w = true ->
  (CFL_compute_dt C w = (Raises e, w')
   \/ exists requested w1,
        CFL_compute_dt C w = (Returns requested, w1)
        /\ solver_step C w1 requested = (Raises e, w')) ->
  exists st,
    main_block C a initial_time (S fuel) (initial_env C w)
    = Raise (NameError "start_time") st
    /\ out st
       = [LogStartingLoop; LogExceptionRaised;
          LogIterations (solver_iteration C (snd (time_time C w')));
          LogSimEndTime (solver_sim_time C (snd (time_time C w')))].
Proof.
  intros Hok Hfail.
  unfold main_block, try_suite, except_suite, initial_env.
  cbn [while_ok]. unfold bind, modify, emit, set_first_loop. simpl_env.
  rewrite Hok.
  destruct Hfail as [H | (requested & w1 & H1 & H2)].
  - rewrite (loop_body_controller_fails _ e w') by exact H.
    rewrite finally_suite_unbound by reflexivity. simpl_env.
    eexists. split; reflexivity.
  - rewrite (loop_body_solver_fails _ requested w1 e w') by assumption.
    rewrite finally_suite_unbound by reflexivity. simpl_env.
    eexists. split; reflexivity.
Qed.

(** A failure the [try] suite raises once [start_time] is bound reaches
    the caller unchanged whenever the [finally] suite runs to its end. *)
Lemma main_block_reraises fuel (st st1 st3 : Env C) e :
  try_suite C fuel st = Raise e st1 ->
  finally_suite C a initial_time (emit C LogExceptionRaised st1) = Ok tt st3 ->
  main_block C a initial_time fuel st = Raise e st3.
Proof.
  intros H1 H2. unfold main_block, except_suite, modify. now rewrite H1, H2.
Qed.

(** C2 (what the code does with a final iteration count of 1).  When the
    loop ends normally with one iteration counted, rank 0 prints the
    startup, main-loop and total times, the iteration count and
    [loop sec/iter], and the next line, [average dt], divides by
    [n_steps = 0]: the block ends in [ZeroDivisionError], with no mark of
    missing data and no [scaling:] line. *)
Theorem report_after_one_iteration_divides_by_zero
        (fuel : nat) (st st1 : Env C) (ts te : Q) (w : World C) :
  try_suite C fuel st = Ok tt st1 ->
  start_time st1 = Some ts ->
  time_time C (world st1) = (te, w) ->
  rank C w = 0%Z ->
  solver_iteration C w = 1%Z ->
  exists st',
    main_block C a initial_time fuel st = Raise ZeroDivisionError st'
    /\ out st'
       = out st1
         ++ final_log 1 (solver_sim_time C w) te ts (comm_size C w)
         ++ [PrintRule;
             PrintStartupTime (ts - initial_time);
             PrintMainLoopTime (te - ts);
             PrintTotalTime (te - initial_time);
             PrintIterations 1;
             PrintLoopSecIter ((te - ts) / inject_Z 1)].
Proof.
  intros Htry Hs Ht Hr Hi. unfold main_block. rewrite Htry.
  rewrite (finally_suite_one_iteration st1 ts te w) by assumption.
  eexists. split; reflexivity.
Qed.

Lemma Qdiv_by_one_less (x : Q) (it : Z) :
  it <> 0%Z -> it <> 1%Z ->
  x / inject_Z it == x / inject_Z (it - 1) -> x == 0.
Proof.
  intros H0 H1 H.
  assert (Ha : ~ inject_Z it == 0).
  { intros E. apply H0. unfold Qeq, inject_Z in E. cbn in E. lia. }
  assert (Hb : ~ inject_Z (it - 1) == 0).
  { intros E. apply H1. unfold Qeq, inject_Z in E. cbn in E. lia. }
  assert (Hc : inject_Z (it - 1) == inject_Z it - 1).
  { unfold Z.sub. rewrite inject_Z_plus. reflexivity. }
  assert (E1 : x == x / inject_Z it * inject_Z it) by (field; exact Ha).
  assert (E2 : x == x / inject_Z (it - 1) * inject_Z (it - 1))
    by (field; exact Hb).
  rewrite <- H in E2.
  assert (E0 : x / inject_Z it == 0).
  { setoid_replace (x / inject_Z it)
      with (x / inject_Z it * inject_Z it
            - x / inject_Z it * inject_Z (it - 1))
      by (rewrite Hc; ring).
    rewrite <- E1, <- E2. ring. }
  rewrite E1, E0. ring.
Qed.

(** C7 (what the code prints as [loop sec/iter]).  When the loop ends
    normally with at least two iterations counted, rank 0 prints the whole
    report; its [loop sec/iter] line is the main-loop time divided by the
    iteration count itself, while the per-iteration field of the
    [scaling:] line divides by the count minus one; the two differ
    whenever the main-loop time is not zero. *)
Theorem loop_sec_iter_divides_by_iteration_count
        (fuel : nat) (st st1 : Env C) (ts te : Q) (w : World C) :
  try_suite C fuel st = Ok tt st1 ->
  start_time st1 = Some ts ->
  time_time C (world st1) = (te, w) ->
  rank C w = 0%Z ->
  (2 <= solver_iteration C w)%Z ->
  (nx a * nz a)%Z <> 0%Z ->
  let it := solver_iteration C w in
  let n_steps := inject_Z (it - 1) in
  let grid := inject_Z (nx a * nz a) in
  let size := comm_size C w in
  exists st',
    main_block C a initial_time fuel st = Ok tt st'
    /\ out st'
       = out st1
         ++ final_log it (solver_sim_time C w) te ts size
         ++ [PrintRule;
             PrintStartupTime (ts - initial_time);
             PrintMainLoopTime (te - ts);
             PrintTotalTime (te - initial_time);
             PrintIterations it;
             PrintLoopSecIter ((te - ts) / inject_Z it);
             PrintAverageDt (solver_sim_time C w / n_steps);
             PrintHeader;
             PrintScaling size (nx a) (nz a)
                          (ts - initial_time) (te - ts)
                          ((te - ts) / n_steps)
                          ((te - ts) / n_steps / grid)
                          (inject_Z size * (te - ts) / n_steps / grid);
             PrintRule]
    /\ (~ te - ts == 0 ->
        ~ (te - ts) / inject_Z it == (te - ts) / n_steps).
Proof.
  intros Htry Hs Ht Hr Hi Hg it n_steps grid size.
  unfold main_block. rewrite Htry.
  rewrite (finally_suite_reports st1 ts te w) by (assumption || lia).
  eexists. split; [reflexivity |]. split; [reflexivity |].
  intros Hne E. apply Hne.
  apply (Qdiv_by_one_less _ it); [subst it; lia | subst it; lia | exact E].
Qed.


End MainFacts.

(* ===================================================================== *)
(** ** The step-size controller *)
(* ===================================================================== *)

Lemma rate_limit_bounds (s : StepSizeState) (x : Q) :
  well_formed s ->
  x <= absolute_max_dt s ->
  let c := rate_limit s (current_dt s) x in
  min_change s * current_dt s <= c
  /\ c <= max_change s * current_dt s
  /\ c <= absolute_max_dt s
  /\ 0 < c.
Proof.
  intros (Hp & Hm & Hlo & Hlo1 & Hhi) Hx c. subst c. unfold rate_limit.
  set (p := current_dt s) in *. set (m := min_change s) in *.
  set (M := max_change s) in *. set (D := absolute_max_dt s) in *.
  assert (Hmp : m * p <= p) by nra.
  assert (HMp : p <= M * p) by nra.
  assert (H0 : 0 < m * p) by nra.
  pose proof (Q.le_max_l (m * p) (Qmin x (M * p))) as L.
  pose proof (Q.le_min_l x (M * p)) as L1.
  pose proof (Q.le_min_r x (M * p)) as L2.
  repeat split.
  - exact L.
  - apply Q.max_lub; lra.
  - apply Q.max_lub; lra.
  - lra.
Qed.

Lemma clip_le (s : StepSizeState) (x : Q) :
  0 <= absolute_max_dt s -> clip s x <= absolute_max_dt s.
Proof.
  intros H. unfold clip. apply Q.max_lub; [exact H | apply Q.le_min_r].
Qed.

(** One call: the step returned is within the change window of the
    current step and within the absolute maximum, and the controller
    stays well formed with the same settings. *)
Lemma compute_dt_bounds (h : bool) (s : StepSizeState) (it : Z)
      (ratio : option Q) (d : Q) (s' : StepSizeState) :
  well_formed s ->
  compute_dt h s it ratio = (Returns d, s') ->
  min_change s * current_dt s <= d
  /\ d <= max_change s * current_dt s
  /\ d <= absolute_max_dt s
  /\ well_formed s'
  /\ min_change s' = min_change s
  /\ max_change s' = max_change s
  /\ absolute_max_dt s' = absolute_max_dt s.
Proof.
  intros Hwf H.
  assert (Hkeep : min_change s * current_dt s <= current_dt s
                  /\ current_dt s <= max_change s * current_dt s
                  /\ current_dt s <= absolute_max_dt s).
  { destruct Hwf as (Hp & Hm & Hlo & Hlo1 & Hhi). repeat split; nra. }
  unfold compute_dt in H.
  destruct (negb (it mod cadence s =? 0)%Z).
  - inversion H; subst. tauto.
  - destruct ratio as [r|]; [| discriminate].
    destruct (held h s _ (current_dt s)).
    + inversion H; subst. tauto.
    + inversion H; subst. clear H.
      assert (Hc : clip s (raw_candidate s r) <= absolute_max_dt s).
      { apply clip_le. destruct Hwf as (Hp & Hm & _). lra. }
      destruct (rate_limit_bounds s _ Hwf Hc) as (B1 & B2 & B3 & B4).
      cbn [set_current_dt min_change max_change absolute_max_dt current_dt].
      repeat split; try assumption; apply Hwf.
Qed.

Lemma controller_run_bounds (h : bool) (calls : list (Z * option Q)) :
  forall s,
    well_formed s ->
    Forall (fun pn : Q * Q =>
              min_change s * fst pn <= snd pn
              /\ snd pn <= max_change s * fst pn
              /\ snd pn <= absolute_max_dt s)
           (controller_run h s calls).
Proof.
  induction calls as [| [it ratio] rest IH]; intros s Hwf;
    cbn [controller_run].
  - constructor.
  - destruct (compute_dt h s it ratio) as [[d | e] s'] eqn:E;
      [| constructor].
    destruct (compute_dt_bounds h s it ratio d s' Hwf E)
      as (B1 & B2 & B3 & Hwf' & E1 & E2 & E3).
    constructor.
    + cbn [fst snd]. tauto.
    + rewrite <- E1, <- E2, <- E3. apply IH. exact Hwf'.
Qed.

Lemma CFL_well_formed : well_formed CFL.
Proof. unfold well_formed, CFL, initial_dt, max_dt. cbn. lra. Qed.

(** C4.  Drive the controller the script builds through any sequence of
    calls, with either choice at the threshold tie.  Every step it returns
    lies between 0.5 and 1.5 times the step it held before the call (the
    calls it gates return that step itself), and every step it returns is
    at most [max_dt = 0.5]. *)
Theorem controller_steps_are_rate_limited
        (hold_on_tie : bool) (calls : list (Z * option Q)) :
  Forall (fun pn : Q * Q =>
            (1 # 2) * fst pn <= snd pn
            /\ snd pn <= (3 # 2) * fst pn
            /\ snd pn <= max_dt)
         (controller_run hold_on_tie CFL calls).
Proof.
  exact (controller_run_bounds hold_on_tie calls CFL CFL_well_formed).
Qed.

(* ===================================================================== *)
(** ** The stop predicate *)
(* ===================================================================== *)

Section WhileFacts.

Variable C : Collaborators.

Lemma iterate_body_succ (k : nat) (st st1 : Env C) :
  loop_body C st = Ok tt st1 ->
  iterate_body C (S k) st = iterate_body C k st1.
Proof. intros H. cbn [iterate_body]. unfold bind. now rewrite H. Qed.

(** If the first [k] passes return, the predicate holds before each of
    them and fails after the last, the [while] ends there. *)
Lemma while_ok_unroll (k : nat) :
  forall (fuel : nat) (st st' : Env C),
    (k < fuel)%nat ->
    iterate_body C k st = Ok tt st' ->
    (forall j stj, (j < k)%nat -> iterate_body C j st = Ok tt stj ->
                   solver_ok C (world stj) = true) ->
    solver_ok C (world st') = false ->
    while_ok C fuel st = Ok tt st'.
Proof.
  induction k as [|k IH]; intros fuel st st' Hf Hk Hbefore Hafter;
    destruct fuel as [|fuel]; try lia; cbn [while_ok].
  - cbn [iterate_body] in Hk. unfold ret in Hk. inversion Hk; subst.
    now rewrite Hafter.
  - rewrite (Hbefore 0%nat st) by (lia || reflexivity).
    destruct (loop_body C st) as [[] st1 | e st1 |] eqn:E;
      try (cbn [iterate_body] in Hk; unfold bind in Hk; rewrite E in Hk;
           discriminate).
    unfold bind. rewrite E.
    rewrite (iterate_body_succ k st st1 E) in Hk.
    apply (IH fuel st1 st'); try assumption; try lia.
    intros j stj Hj Hrun. apply (Hbefore (S j) stj); [lia |].
    now rewrite (iterate_body_succ j st st1 E).
Qed.

Lemma try_suite_is_while (fuel : nat) (w : World C) :
  try_suite C fuel (initial_env C w) = while_ok C fuel (loop_entry C w).
Proof. reflexivity. Qed.

End WhileFacts.

Section StopPredicate.

Variable hold_on_tie : bool.
Variable ratio_at : Z -> option Q.
Variable used_at : Z -> Q -> answer Q.
Variable cost_at : Z -> Q.

Abbreviation SC :=
  (spec_collaborators hold_on_tie ratio_at used_at cost_at).

Lemma spec_compute_dt_keeps (w w1 : SpecWorld) r :
  spec_compute_dt hold_on_tie ratio_at w = (r, w1) ->
  w_iteration w1 = w_iteration w /\ w_stops w1 = w_stops w.
Proof.
  unfold spec_compute_dt.
  destruct (compute_dt _ _ _ _) as [r' s']. intros H. inversion H; subst.
  split; reflexivity.
Qed.

Lemma spec_step_returns (w w2 : SpecWorld) requested used :
  spec_step used_at cost_at w requested = (Returns used, w2) ->
  w_iteration w2 = (w_iteration w + 1)%Z /\ w_stops w2 = w_stops w.
Proof.
  unfold spec_step. destruct (used_at _ _); intros H; inversion H; subst.
  split; reflexivity.
Qed.

Lemma iterations_logged_app (l : list event) it t d :
  iterations_logged (l ++ [LogIteration it t d]) = S (iterations_logged l).
Proof.
  unfold iterations_logged. rewrite filter_app, length_app. cbn. lia.
Qed.

(** A pass that returns counts one iteration and logs one record. *)
Lemma spec_loop_body_counts (st st' : Env SC) :
  loop_body SC st = Ok tt st' ->
  w_iteration (world st') = (w_iteration (world st) + 1)%Z
  /\ w_stops (world st') = w_stops (world st)
  /\ iterations_logged (out st') = S (iterations_logged (out st)).
Proof.
  intros H.
  destruct (CFL_compute_dt SC (world st)) as [[requested | e] w1] eqn:E1.
  - destruct (solver_step SC w1 requested) as [[used | e] w2] eqn:E2.
    + rewrite (loop_body_returns SC st requested w1 used w2 E1 E2) in H.
      cbn in E1, E2.
      destruct (spec_compute_dt_keeps _ _ _ E1) as [A1 A2].
      destruct (spec_step_returns _ _ _ _ E2) as [B1 B2].
      cbn zeta in H.
      destruct (first_loop st); inversion H; subst; clear H; simpl_env;
        rewrite iterations_logged_app; cbn [time_time spec_collaborators snd];
        repeat split; congruence.
    + rewrite (loop_body_solver_fails SC st requested w1 e w2 E1 E2) in H.
      discriminate.
  - rewrite (loop_body_controller_fails SC st e w1 E1) in H. discriminate.
Qed.

Lemma spec_iterate_body_counts (k : nat) :
  forall (st st' : Env SC),
    iterate_body SC k st = Ok tt st' ->
    w_iteration (world st') = (w_iteration (world st) + Z.of_nat k)%Z
    /\ w_stops (world st') = w_stops (world st)
    /\ iterations_logged (out st') = (iterations_logged (out st) + k)%nat.
Proof.
  induction k as [|k IH]; intros st st' H.
  - cbn [iterate_body] in H. unfold ret in H. inversion H; subst.
    repeat split; lia.
  - destruct (loop_body SC st) as [[] st1 | e st1 |] eqn:E;
      try (cbn [iterate_body] in H; unfold bind in H; rewrite E in H;
           discriminate).
    rewrite (iterate_body_succ SC k st st1 E) in H.
    destruct (spec_loop_body_counts st st1 E) as (A1 & A2 & A3).
    destruct (IH st1 st' H) as (B1 & B2 & B3).
    repeat split; try congruence; lia.
Qed.

Lemma Qlt_bool_true (x y : Q) : Qlt_bool x y = true -> Qle_bool y x = false.
Proof. unfold Qlt_bool. now destruct (Qle_bool y x). Qed.


(** C5 (as amended).  With [--niter] an integer [n >= 0], let [k <= n + 1]
    be such that the first [k] passes through the loop return, the
    simulation time and the elapsed wall clock are below 50 and 1800
    seconds at the start and after each of the first [k - 1] passes, and
    after pass [k] either [k = n + 1] or one of the two has reached its
    threshold.  Then the loop ends normally right after pass [k]: the
    solver has counted [k] iterations and [k] iteration records were
    logged.  So the loop performs exactly [n + 1] iterations when neither
    time threshold is reached in the first [n], and stops after the first
    pass at which one is reached otherwise. *)
Theorem loop_stops_after_niter_plus_one
        (a : Args) (n k : nat) (clock : Q) (size rk : Z) (fuel : nat) :
  int_of_float (arg_niter a) = Z.of_nat n ->
  (k <= S n)%nat ->
  forallb (fun j => clear_after SC w_sim_time elapsed_wall w_stops j
                                (spec_world a clock size rk))
          (seq 0 k) = true ->
  returns_after SC k (spec_world a clock size rk) = true ->
  (k = S n
   \/ clear_after SC w_sim_time elapsed_wall w_stops k
                  (spec_world a clock size rk) = false) ->
  (k < fuel)%nat ->
  exists st',
    try_suite SC fuel (initial_env SC (spec_world a clock size rk))
    = Ok tt st'
    /\ w_iteration (world st') = Z.of_nat k
    /\ iterations_logged (out st') = k.
Proof.
  intros Hn Hk Hclear Hret Hlast Hfuel.
  set (w0 := spec_world a clock size rk) in *.
  unfold returns_after, first_passes in Hret.
  destruct (iterate_body SC k (loop_entry SC w0))
    as [[] stf | |] eqn:Ef; try discriminate.
  destruct (spec_iterate_body_counts k _ _ Ef) as (F1 & F2 & F3).
  exists stf. rewrite try_suite_is_while.
  assert (Hstop : stop_iteration (w_stops w0) = (Z.of_nat n + 1)%Z).
  { cbn. unfold niter. now rewrite Hn. }
  split; [| split].
  - apply (while_ok_unroll SC k); try assumption.
    + intros j stj Hj Hrun.
      destruct (spec_iterate_body_counts j _ _ Hrun) as (J1 & J2 & J3).
      rewrite forallb_forall in Hclear.
      assert (Hin : In j (seq 0 k)) by (apply in_seq; lia).
      specialize (Hclear j Hin). unfold clear_after, first_passes in Hclear.
      fold w0 in Hclear. rewrite Hrun in Hclear.
      apply andb_true_iff in Hclear. destruct Hclear as [Hs Hw].
      apply Qlt_bool_true in Hs. apply Qlt_bool_true in Hw.
      cbn [solver_ok spec_collaborators]. unfold spec_ok.
      unfold elapsed_wall in Hw. rewrite Hs, Hw.
      assert (Hit : (stop_iteration (w_stops (world stj))
                     <=? w_iteration (world stj))%Z = false).
      { apply Z.leb_gt. rewrite J1, J2.
        cbn [loop_entry world set_first_loop emit initial_env].
        rewrite Hstop. cbn [w_iteration w0 spec_world]. lia. }
      now rewrite Hit.
    + cbn [solver_ok spec_collaborators]. unfold spec_ok.
      destruct Hlast as [Hlast | Hlast].
      * assert (Hit : (stop_iteration (w_stops (world stf))
                       <=? w_iteration (world stf))%Z = true).
        { apply Z.leb_le. rewrite F1, F2.
          cbn [loop_entry world set_first_loop emit initial_env].
          rewrite Hstop. cbn [w_iteration w0 spec_world]. lia. }
        now rewrite Hit.
      * unfold clear_after, first_passes in Hlast. fold w0 in Hlast.
        rewrite Ef in Hlast. unfold Qlt_bool, elapsed_wall in Hlast.
        destruct (Qle_bool (stop_sim_time (w_stops (world stf)))
                           (w_sim_time (world stf)));
          destruct (Qle_bool (stop_wall_time (w_stops (world stf)))
                             (w_clock (world stf) - w_wall_start (world stf)));
          destruct (stop_iteration (w_stops (world stf))
                    <=? w_iteration (world stf))%Z;
          cbn in Hlast |- *; congruence.
  - rewrite F1. cbn. lia.
  - rewrite F3. cbn. lia.
Qed.


End StopPredicate.

(* ===================================================================== *)
(** ** Runs on small inputs *)
(* ===================================================================== *)

Lemma fell_through_env_of {C : Collaborators} (r : result C unit)
      (fallback : Env C) :
  fell_through r = true -> r = Ok tt (env_of r fallback).
Proof. destruct r as [[] st | e st |]; cbn; congruence. Qed.

(** Three runs: [--niter=10] on the quiet run ends after 11 iterations;
    with an advance that takes 1000 seconds it ends after 2, the wall
    clock being past 1800 seconds; [--niter=200] on the quiet run ends
    after 113, the simulation time being past 50. *)
Lemma loop_stops_after_niter_plus_one_witness :
  (exists st',
      try_suite quiet 20 (initial_env quiet (entry 10)) = Ok tt st'
      /\ w_iteration (world st') = 11%Z
      /\ iterations_logged (out st') = 11%nat)
  /\ (exists st',
         try_suite slow 20 (initial_env slow (entry 10)) = Ok tt st'
         /\ w_iteration (world st') = 2%Z
         /\ iterations_logged (out st') = 2%nat)
  /\ (exists st',
         try_suite quiet 300 (initial_env quiet (entry 200)) = Ok tt st'
         /\ w_iteration (world st') = 113%Z
         /\ iterations_logged (out st') = 113%nat).
Proof.
  split; [| split].
  - apply (loop_stops_after_niter_plus_one true at_rest honest (seconds 1)
             (small_run 10) 10 11 100 4 0 20).
    + reflexivity.
    + lia.
    + vm_compute. reflexivity.
    + vm_compute. reflexivity.
    + left. reflexivity.
    + lia.
  - apply (loop_stops_after_niter_plus_one true at_rest honest
             (seconds 1000) (small_run 10) 10 2 100 4 0 20).
    + reflexivity.
    + lia.
    + vm_compute. reflexivity.
    + vm_compute. reflexivity.
    + right. vm_compute. reflexivity.
    + lia.
  - apply (loop_stops_after_niter_plus_one true at_rest honest (seconds 1)
             (small_run 200) 200 113 100 4 0 300).
    + reflexivity.
    + lia.
    + vm_compute. reflexivity.
    + vm_compute. reflexivity.
    + right. vm_compute. reflexivity.
    + lia.
Defined.

(** With an advance that takes 1000 seconds, the run asked for 10
    iterations ends normally after 2: the wall clock is past 1800
    seconds. *)
Lemma loop_stopped_early_by_wall_clock :
  int_of_float (arg_niter (small_run 10)) = 10%Z
  /\ match try_suite slow 20 (initial_env slow (entry 10)) with
     | Ok _ st' =>
         w_iteration (world st') = 2%Z
         /\ iterations_logged (out st') = 2%nat
         /\ iterations_logged (out st') <> (10 + 1)%nat
     | _ => False
     end.
Proof.
  vm_compute. repeat split; discriminate.
Qed.

(** On the quiet run the step grows to 0.5 and the simulation time
    reaches 50 after 113 iterations: the run asked for 200 iterations ends
    normally there. *)
Example loop_stopped_early_by_simulation_time :
  int_of_float (arg_niter (small_run 200)) = 200%Z
  /\ match try_suite quiet 300 (initial_env quiet (entry 200)) with
     | Ok _ st' =>
         w_iteration (world st') = 113%Z
         /\ iterations_logged (out st') = 113%nat
         /\ Qle_bool 50 (w_sim_time (world st')) = true
         /\ Qle_bool 1800 (elapsed_wall (world st')) = false
     | _ => False
     end.
Proof.
  vm_compute. repeat split.
Qed.

Lemma first_iteration_failure_loses_report_witness :
  exists st,
    main_block doomed (small_run 10) 0 20 (initial_env doomed (entry 10))
    = Raise (NameError "start_time") st
    /\ out st = [LogStartingLoop; LogExceptionRaised;
                 LogIterations 0; LogSimEndTime 0].
Proof.
  pose (w1 := snd (CFL_compute_dt doomed (entry 10))).
  pose (w' := snd (solver_step doomed w1 (3 # 2000))).
  apply (first_iteration_failure_loses_report doomed (small_run 10) 0
           (entry 10) 19 (External "non-finite field") w').
  - reflexivity.
  - right. exists (3 # 2000), w1. split; reflexivity.
Defined.

Lemma report_after_one_iteration_divides_by_zero_witness :
  exists st',
    main_block quiet (small_run 0) 0 5 (initial_env quiet (entry 0))
    = Raise ZeroDivisionError st'.
Proof.
  pose (st0 := initial_env quiet (entry 0)).
  pose (st1 := env_of (try_suite quiet 5 st0) st0).
  destruct (report_after_one_iteration_divides_by_zero quiet (small_run 0) 0
              5 st0 st1 101 101 (world st1))
    as (st' & H & _).
  - apply fell_through_env_of. vm_compute. reflexivity.
  - vm_compute. reflexivity.
  - vm_compute. reflexivity.
  - vm_compute. reflexivity.
  - vm_compute. reflexivity.
  - exists st'. exact H.
Defined.

Lemma loop_sec_iter_divides_by_iteration_count_witness :
  exists st',
    main_block quiet (small_run 10) 0 20 (initial_env quiet (entry 10))
    = Ok tt st'.
Proof.
  pose (st0 := initial_env quiet (entry 10)).
  pose (st1 := env_of (try_suite quiet 20 st0) st0).
  destruct (loop_sec_iter_divides_by_iteration_count quiet (small_run 10) 0
              20 st0 st1 101 111 (world st1))
    as (st' & H & _).
  - apply fell_through_env_of. vm_compute. reflexivity.
  - vm_compute. reflexivity.
  - vm_compute. reflexivity.
  - vm_compute. reflexivity.
  - vm_compute. discriminate.
  - vm_compute. discriminate.
  - exists st'. exact H.
Defined.



(** *** What the script writes on these runs *)

(** [--niter=10] on the quiet run: eleven iterations, ten seconds of main
    loop; [loop sec/iter] is 10/11 while the [scaling:] line has 10/10. *)
Example report_of_ten_iterations :
  match main_block quiet (small_run 10) 0 20 (initial_env quiet (entry 10))
  with
  | Ok _ st =>
      loop_sec_iter_lines (out st) = [10 # 11]
      /\ scaling_per_iter_fields (out st) = [10 # 10]
      /\ ~ 10 # 11 == 10 / inject_Z (11 - 1)
  | _ => False
  end.
Proof.
  vm_compute. repeat split; try reflexivity. discriminate.
Qed.

(** [--niter=0]: one iteration, and the report stops at [average dt]. *)
Example report_of_niter_zero :
  match main_block quiet (small_run 0) 0 20 (initial_env quiet (entry 0))
  with
  | Raise e st =>
      e = ZeroDivisionError
      /\ out st
         = [LogStartingLoop; LogIteration 1 (3 # 2000) (3 # 2000);
            LogIterations 1; LogSimEndTime (3 # 2000);
            LogRunTimeSec 0; LogRunTimeCpuHr (0 # 3600); PrintRule;
            PrintStartupTime 101; PrintMainLoopTime 0;
            PrintTotalTime 101; PrintIterations 1; PrintLoopSecIter 0]
  | _ => False
  end.
Proof.
  vm_compute. split; reflexivity.
Qed.

(** A failure in the second advance: the iteration count is 1 and the
    report ends in the same division, not in the solver's failure. *)
Example report_after_failure_in_second_iteration :
  let C := spec_collaborators true at_rest (blows_up_at 1) (seconds 1) in
  match main_block C (small_run 10) 0 20 (initial_env C (entry 10)) with
  | Raise e st =>
      e = ZeroDivisionError /\ scaling_per_iter_fields (out st) = []
  | _ => False
  end.
Proof.
  vm_compute. split; reflexivity.
Qed.

(** A failure in the third advance: the whole report is printed and the
    solver's failure reaches the caller. *)
Example report_after_failure_in_third_iteration :
  let C := spec_collaborators true at_rest (blows_up_at 2) (seconds 1) in
  match main_block C (small_run 10) 0 20 (initial_env C (entry 10)) with
  | Raise e st =>
      e = External "non-finite field"
      /\ loop_sec_iter_lines (out st) = [2 # 2]
      /\ scaling_per_iter_fields (out st) = [2 # 1]
      /\ In LogExceptionRaised (out st)
  | _ => False
  end.
Proof.
  vm_compute. repeat split; try reflexivity. tauto.
Qed.

(* ===================================================================== *)
(** ** More on the main block *)
(* ===================================================================== *)

Section MainBlockMore.

Variable C : Collaborators.
Variable a : Args.
Variable initial_time : Q.

(** What one pass through the body can do to the environment. *)
Lemma loop_body_outcome (st : Env C) :
  match loop_body C st with
  | Ok _ st' =>
      first_loop st' = false
      /\ (if first_loop st
          then start_time st' <> None
          else start_time st' = start_time st)
      /\ exists it t d, out st' = out st ++ [LogIteration it t d]
  | Raise _ st' =>
      first_loop st' = first_loop st
      /\ start_time st' = start_time st
      /\ out st' = out st
  | OutOfFuel => False
  end.
Proof.
  destruct (CFL_compute_dt C (world st)) as [[requested | e] w1] eqn:E1.
  - destruct (solver_step C w1 requested) as [[used | e] w2] eqn:E2.
    + rewrite (loop_body_returns C st requested w1 used w2 E1 E2).
      cbn zeta. destruct (first_loop st); simpl_env;
        (split; [reflexivity |]; split;
         [try discriminate; reflexivity | eauto]).
    + rewrite (loop_body_solver_fails C st requested w1 e w2 E1 E2).
      simpl_env. auto.
  - rewrite (loop_body_controller_fails C st e w1 E1). simpl_env. auto.
Qed.

(** A property every pass keeps holds when the [while] is left, by
    either door. *)
Lemma while_ok_invariant (P : Env C -> Prop) :
  (forall st, P st ->
              match loop_body C st with
              | Ok _ st' => P st'
              | Raise _ st' => P st'
              | OutOfFuel => True
              end) ->
  forall fuel st,
    P st ->
    match while_ok C fuel st with
    | Ok _ st' => P st' /\ solver_ok C (world st') = false
    | Raise _ st' => P st'
    | OutOfFuel => True
    end.
Proof.
  intros Hbody. induction fuel as [|fuel IH]; intros st HP; cbn [while_ok].
  - exact I.
  - destruct (solver_ok C (world st)) eqn:Eok; [| auto].
    unfold bind. specialize (Hbody st HP).
    destruct (loop_body C st) as [[] st1 | e st1 |].
    + apply IH. exact Hbody.
    + exact Hbody.
    + exact I.
Qed.

(** The [finally] suite never runs out of fuel; it leaves the world the
    clock left, only adds to the output, and the only failures it has of
    its own are the unbound [start_time] and, on rank 0 with [start_time]
    bound, a division by zero. *)
Lemma finally_suite_outcome (st : Env C) :
  match finally_suite C a initial_time st with
  | Ok _ st' =>
      world st' = snd (time_time C (world st))
      /\ (exists l, out st' = out st ++ l)
      /\ start_time st <> None
      /\ start_time st' = start_time st
  | Raise e st' =>
      world st' = snd (time_time C (world st))
      /\ (exists l, out st' = out st ++ l)
      /\ ((e = NameError "start_time" /\ start_time st = None)
          \/ (e = ZeroDivisionError /\ start_time st <> None
              /\ rank C (world st') = 0%Z))
  | OutOfFuel => False
  end.
Proof.
  unfold finally_suite, print_statistics, py_div. unfold_script.
  destruct (time_time C (world st)) as [te w]. simpl_env.
  destruct (start_time st) as [ts|] eqn:Es; simpl_env.
  - destruct (rank C w =? 0)%Z eqn:Er; simpl_env.
    + apply Z.eqb_eq in Er.
      repeat match goal with
             | |- context [if Qeq_bool ?x ?y then _ else _] =>
                 destruct (Qeq_bool x y); simpl_env
             end;
        repeat split; try discriminate; try reflexivity;
        try (rewrite <- !app_assoc; eexists; reflexivity);
        right; repeat split; try discriminate; assumption.
    + repeat split; try discriminate.
      rewrite <- !app_assoc. eexists; reflexivity.
  - repeat split.
    + rewrite <- !app_assoc. eexists; reflexivity.
    + left. split; reflexivity.
Qed.

(** When the [try] suite is left, either nothing was counted yet
    ([first_loop] still true, [start_time] unbound, no iteration record)
    or [first_loop] is false, [start_time] is bound and a record was
    logged. *)
Lemma try_suite_start_time_invariant (fuel : nat) (w : World C) :
  match try_suite C fuel (initial_env C w) with
  | Ok _ st' | Raise _ st' =>
      (first_loop st' = true /\ start_time st' = None
       /\ iterations_logged (out st') = 0%nat)
      \/ (first_loop st' = false /\ start_time st' <> None
          /\ iterations_logged (out st') <> 0%nat)
  | OutOfFuel => True
  end.
Proof.
  rewrite try_suite_is_while.
  pose (P := fun st : Env C =>
               (first_loop st = true /\ start_time st = None
                /\ iterations_logged (out st) = 0%nat)
               \/ (first_loop st = false /\ start_time st <> None
                   /\ iterations_logged (out st) <> 0%nat)).
  assert (Hbody : forall st, P st ->
                    match loop_body C st with
                    | Ok _ st' => P st'
                    | Raise _ st' => P st'
                    | OutOfFuel => True
                    end).
  { intros st HPst. pose proof (loop_body_outcome st) as Hout.
    destruct (loop_body C st) as [[] st1 | e st1 |]; [| | exact I].
    - destruct Hout as (A & B & it & t & d & Eout). right.
      repeat split.
      + exact A.
      + destruct HPst as [(F & S0 & _) | (F & S0 & _)]; rewrite F in B;
          congruence.
      + rewrite Eout. unfold iterations_logged.
        rewrite filter_app, length_app. cbn. lia.
    - destruct Hout as (A & B & Eout). unfold P. rewrite A, B, Eout.
      exact HPst. }
  assert (H0 : P (loop_entry C w)) by (left; repeat split).
  pose proof (while_ok_invariant P Hbody fuel (loop_entry C w) H0) as H.
  destruct (while_ok C fuel (loop_entry C w)) as [[] st' | e st' |];
    [apply H | apply H | exact I].
Qed.

(** X1.  When the [try] suite is left, by its end or by a failure,
    [start_time] is bound exactly when at least one iteration record was
    logged, and [first_loop] is still true exactly when none was. *)
Theorem start_time_bound_iff_iteration_logged (fuel : nat) (w : World C) :
  match try_suite C fuel (initial_env C w) with
  | Ok _ st' | Raise _ st' =>
      (start_time st' = None <-> iterations_logged (out st') = 0%nat)
      /\ (first_loop st' = true <-> iterations_logged (out st') = 0%nat)
  | OutOfFuel => True
  end.
Proof.
  pose proof (try_suite_start_time_invariant fuel w) as H.
  destruct (try_suite C fuel (initial_env C w)) as [[] st' | e st' |];
    [| | exact I];
    destruct H as [(A & B & D) | (A & B & D)]; rewrite A;
    (split; split; intros; try congruence; try assumption; tauto).
Qed.

(** What the [try] suite writes is the `Starting loop' line followed by
    iteration records. *)
Lemma try_suite_log_shape (fuel : nat) (w : World C) :
  match try_suite C fuel (initial_env C w) with
  | Ok _ st' | Raise _ st' =>
      exists records,
        out st' = LogStartingLoop :: records
        /\ forallb is_iteration_record records = true
  | OutOfFuel => True
  end.
Proof.
  rewrite try_suite_is_while.
  pose (P := fun st : Env C =>
               exists records,
                 out st = LogStartingLoop :: records
                 /\ forallb is_iteration_record records = true).
  assert (Hbody : forall st, P st ->
                    match loop_body C st with
                    | Ok _ st' => P st'
                    | Raise _ st' => P st'
                    | OutOfFuel => True
                    end).
  { intros st (records & Eo & Hall).
    pose proof (loop_body_outcome st) as Hout.
    destruct (loop_body C st) as [[] st1 | e st1 |]; [| | exact I].
    - destruct Hout as (_ & _ & it & t & d & Eout).
      exists (records ++ [LogIteration it t d]). split.
      + rewrite Eout, Eo. reflexivity.
      + rewrite forallb_app, Hall. reflexivity.
    - destruct Hout as (_ & _ & Eout). exists records. rewrite Eout. auto. }
  assert (H0 : P (loop_entry C w)) by (exists []; split; reflexivity).
  pose proof (while_ok_invariant P Hbody fuel (loop_entry C w) H0) as H.
  destruct (while_ok C fuel (loop_entry C w)) as [[] st' | e st' |];
    [apply H | apply H | exact I].
Qed.

(** X2.  What the [try] suite writes is the `Starting loop' line followed
    by iteration records only, so nothing is printed inside the loop; and
    when the suite ends normally, [solver.ok] is false in the world it
    leaves. *)
Theorem loop_log_is_iteration_records (fuel : nat) (w : World C) :
  match try_suite C fuel (initial_env C w) with
  | Ok _ st' =>
      solver_ok C (world st') = false
      /\ exists records,
           out st' = LogStartingLoop :: records
           /\ forallb is_iteration_record records = true
  | Raise _ st' =>
      exists records,
        out st' = LogStartingLoop :: records
        /\ forallb is_iteration_record records = true
  | OutOfFuel => True
  end.
Proof.
  pose proof (try_suite_log_shape fuel w) as Hshape.
  rewrite try_suite_is_while in *.
  assert (Hbody : forall st : Env C, True ->
                    match loop_body C st with
                    | Ok _ _ => True
                    | Raise _ _ => True
                    | OutOfFuel => True
                    end)
    by (intros st _; destruct (loop_body C st); exact I).
  pose proof (while_ok_invariant (fun _ => True) Hbody fuel (loop_entry C w) I)
    as Hinv.
  destruct (while_ok C fuel (loop_entry C w)) as [[] st' | e st' |].
  - split; [apply Hinv | exact Hshape].
  - exact Hshape.
  - exact I.
Qed.

(** X3.  Once [first_loop] is false the loop never binds [start_time]
    again: whatever the number of further passes, and whether the loop
    ends or fails, [start_time] is what it was. *)
Theorem start_time_is_bound_once (fuel : nat) (st : Env C) :
  first_loop st = false ->
  match while_ok C fuel st with
  | Ok _ st' | Raise _ st' =>
      start_time st' = start_time st /\ first_loop st' = false
  | OutOfFuel => True
  end.
Proof.
  intros Hfl.
  pose (P := fun st' : Env C =>
               start_time st' = start_time st /\ first_loop st' = false).
  assert (Hbody : forall s, P s ->
                    match loop_body C s with
                    | Ok _ s' => P s'
                    | Raise _ s' => P s'
                    | OutOfFuel => True
                    end).
  { intros s [A B]. pose proof (loop_body_outcome s) as Hout.
    destruct (loop_body C s) as [[] s1 | e s1 |]; [| | exact I].
    - destruct Hout as (F & S1 & _). rewrite B in S1. split; congruence.
    - destruct Hout as (F & S1 & _). split; congruence. }
  assert (H0 : P st) by (split; [reflexivity | exact Hfl]).
  pose proof (while_ok_invariant P Hbody fuel st H0) as H.
  destruct (while_ok C fuel st) as [[] st' | e st' |];
    [apply H | apply H | exact I].
Qed.

(** X4.  When [solver.ok] is already false on entry the loop body never
    runs, [start_time] is never bound, and the [finally] suite stops at
    line 154: the script ends in [NameError] after logging the iteration
    count and the simulation time, on every rank. *)
Theorem no_iteration_ends_in_name_error (fuel : nat) (w : World C) :
  solver_ok C w = false ->
  exists st,
    main_block C a initial_time (S fuel) (initial_env C w)
    = Raise (NameError "start_time") st
    /\ out st
       = [LogStartingLoop;
          LogIterations (solver_iteration C (snd (time_time C w)));
          LogSimEndTime (solver_sim_time C (snd (time_time C w)))].
Proof.
  intros Hok. unfold main_block, try_suite, initial_env.
  cbn [while_ok]. unfold bind, modify, emit, set_first_loop. simpl_env.
  rewrite Hok. rewrite finally_suite_unbound by reflexivity. simpl_env.
  eexists. split; reflexivity.
Qed.

(** X5.  With [start_time] bound, the [finally] suite ends normally
    exactly when the worker is not rank 0, or the iteration count is
    neither 0 nor 1 and [nx*nz] is not 0; in every other case it ends in
    [ZeroDivisionError]. *)
Theorem finally_suite_ends_normally_iff (st : Env C) (ts : Q) :
  start_time st = Some ts ->
  let w := snd (time_time C (world st)) in
  let safe :=
    negb (rank C w =? 0)%Z
    || (negb (solver_iteration C w =? 0)%Z
        && negb (solver_iteration C w - 1 =? 0)%Z
        && negb (nx a * nz a =? 0)%Z) in
  match finally_suite C a initial_time st with
  | Ok _ _ => safe = true
  | Raise e _ => safe = false /\ e = ZeroDivisionError
  | OutOfFuel => False
  end.
Proof.
  intros Hs. cbv zeta.
  unfold finally_suite, print_statistics, py_div. unfold_script.
  destruct (time_time C (world st)) as [te w]. simpl_env.
  rewrite Hs. simpl_env.
  destruct (rank C w =? 0)%Z eqn:Er; simpl_env; [| reflexivity].
  rewrite !Qeq_bool_inject_Z.
  destruct (solver_iteration C w =? 0)%Z; simpl_env; [auto |].
  destruct (solver_iteration C w - 1 =? 0)%Z; simpl_env; [auto |].
  destruct (nx a * nz a =? 0)%Z; simpl_env; auto.
Qed.

(** X6.  A failure in the loop after at least two counted iterations, on
    rank 0 with a non-empty grid: the failure is logged, the whole report
    is printed, and the same failure reaches the caller. *)
Theorem late_failure_is_reported_and_reraised
        (fuel : nat) (st st1 : Env C) (e : exn) (ts te : Q) (w : World C) :
  try_suite C fuel st = Raise e st1 ->
  start_time st1 = Some ts ->
  time_time C (world st1) = (te, w) ->
  rank C w = 0%Z ->
  (2 <= solver_iteration C w)%Z ->
  (nx a * nz a)%Z <> 0%Z ->
  exists st',
    main_block C a initial_time fuel st = Raise e st'
    /\ exists report,
         out st' = out st1 ++ LogExceptionRaised :: report
         /\ scaling_per_iter_fields report
            = [(te - ts) / inject_Z (solver_iteration C w - 1)]
         /\ existsb is_print report = true.
Proof.
  intros Htry Hs Ht Hr Hi Hg.
  pose proof (finally_suite_reports C a initial_time
                (emit C LogExceptionRaised st1) ts te w) as Hfin.
  unfold emit in Hfin. simpl_env.
  specialize (Hfin Hs Ht Hr ltac:(lia) ltac:(lia) Hg). cbv zeta in Hfin.
  eexists. split.
  - apply (main_block_reraises C a initial_time fuel st st1 _ e Htry).
    unfold emit. exact Hfin.
  - simpl_env. rewrite <- app_assoc. cbn [app].
    eexists. split; [reflexivity |]. split; reflexivity.
Qed.

(** X7.  A failure of the loop is never swallowed: the main block ends in
    an exception, after the `Exception raised' line was logged.  The
    exception is the loop's own unless the [finally] suite fails itself,
    with [NameError] ([start_time] unbound) or [ZeroDivisionError]. *)
Theorem loop_failure_always_propagates
        (fuel : nat) (st st1 : Env C) (e : exn) :
  try_suite C fuel st = Raise e st1 ->
  match main_block C a initial_time fuel st with
  | Raise e' st' =>
      (e' = e
       \/ (e' = NameError "start_time" /\ start_time st1 = None)
       \/ (e' = ZeroDivisionError /\ start_time st1 <> None))
      /\ exists l, out st' = out st1 ++ LogExceptionRaised :: l
  | _ => False
  end.
Proof.
  intros Htry. unfold main_block, except_suite, modify. rewrite Htry.
  pose proof (finally_suite_outcome (emit C LogExceptionRaised st1)) as H.
  destruct (finally_suite C a initial_time (emit C LogExceptionRaised st1))
    as [[] st' | e' st' |]; [| | exact H].
  - destruct H as (_ & (l & El) & _). split; [left; reflexivity |].
    exists l. rewrite El. unfold emit. simpl_env.
    now rewrite <- app_assoc.
  - destruct H as (_ & (l & El) & Hcases). split.
    + right. unfold emit in Hcases. simpl_env. tauto.
    + exists l. rewrite El. unfold emit. simpl_env.
      now rewrite <- app_assoc.
Qed.

(** X8.  A worker whose rank is not 0 prints nothing, on any exit: the
    output of the main block holds no [print] line. *)
Theorem only_rank_zero_prints (fuel : nat) (w : World C) :
  match main_block C a initial_time fuel (initial_env C w) with
  | Ok _ st' | Raise _ st' =>
      rank C (world st') <> 0%Z -> existsb is_print (out st') = false
  | OutOfFuel => True
  end.
Proof.
  assert (Hfin : forall st1 : Env C,
             existsb is_print (out st1) = false ->
             match finally_suite C a initial_time st1 with
             | Ok _ st' | Raise _ st' =>
                 rank C (world st') <> 0%Z ->
                 existsb is_print (out st') = false
             | OutOfFuel => True
             end).
  { intros st1 Hnone.
    destruct (start_time st1) as [ts|] eqn:Es.
    - destruct (time_time C (world st1)) as [te w1] eqn:Et.
      destruct (Z.eq_dec (rank C w1) 0) as [Er | Er].
      + pose proof (finally_suite_outcome st1) as H. rewrite Et in H.
        destruct (finally_suite C a initial_time st1) as [[] st' | e st' |];
          [| | exact I]; destruct H as (Hw & _); cbn [snd] in Hw;
          rewrite Hw; intros Hr; contradiction.
      + rewrite (finally_suite_other_rank C a initial_time st1 ts te w1
                   Es Et Er).
        simpl_env. intros _. rewrite existsb_app, Hnone. reflexivity.
    - rewrite (finally_suite_unbound C a initial_time st1 Es). cbv zeta.
      simpl_env. intros _. rewrite existsb_app, Hnone. reflexivity. }
  assert (Hrec : forall records,
             forallb is_iteration_record records = true ->
             existsb is_print records = false).
  { induction records as [|r records IH]; [reflexivity |].
    cbn [forallb existsb]. intros H. apply andb_true_iff in H.
    destruct H as [Hr Hrest]. rewrite (IH Hrest).
    destruct r; try discriminate; reflexivity. }
  pose proof (try_suite_log_shape fuel w) as Hlog.
  unfold main_block, except_suite, modify.
  destruct (try_suite C fuel (initial_env C w)) as [[] st1 | e st1 |];
    [| | exact I]; destruct Hlog as (records & Eo & Hall).
  - apply Hfin. rewrite Eo. cbn [existsb is_print orb].
    now apply Hrec.
  - assert (Hnone : existsb is_print (out (emit C LogExceptionRaised st1))
                    = false).
    { unfold emit. simpl_env. rewrite existsb_app, Eo.
      cbn [existsb is_print orb]. now rewrite (Hrec records Hall). }
    specialize (Hfin _ Hnone).
    destruct (finally_suite C a initial_time (emit C LogExceptionRaised st1))
      as [[] st' | e' st' |]; exact Hfin.
Qed.

Lemma inject_Z_nonzero (z : Z) : z <> 0%Z -> ~ inject_Z z == 0.
Proof.
  intros H E. apply H. unfold Qeq, inject_Z in E. cbn in E. lia.
Qed.

(** X14.  Whatever the [finally] suite writes, the report is consistent
    (over the rationals): a printed startup time and main-loop time add up
    to the printed total time; and a [scaling:] line repeats the printed
    startup and main-loop times, carries the communicator size and the
    grid, divides the main-loop time by [solver.iteration - 1], and its
    last two fields are the per-iteration time over [nx*nz] and
    [N_cores] times that. *)
Theorem report_is_consistent (st : Env C) :
  match finally_suite C a initial_time st with
  | Ok _ st' | Raise _ st' =>
      exists report,
        out st' = out st ++ report
        /\ (forall s m t,
               In (PrintStartupTime s) report ->
               In (PrintMainLoopTime m) report ->
               In (PrintTotalTime t) report ->
               s + m == t)
        /\ (forall N gx gz s m f3 f4 f5,
               In (PrintScaling N gx gz s m f3 f4 f5) report ->
               In (PrintStartupTime s) report
               /\ In (PrintMainLoopTime m) report
               /\ N = comm_size C (world st')
               /\ gx = nx a /\ gz = nz a
               /\ f3 == m / inject_Z (solver_iteration C (world st') - 1)
               /\ f4 * inject_Z (gx * gz) == f3
               /\ f5 == inject_Z N * f4)
  | OutOfFuel => False
  end.
Proof.
  unfold finally_suite, print_statistics, py_div. unfold_script.
  destruct (time_time C (world st)) as [te w]. simpl_env.
  destruct (start_time st) as [ts|] eqn:Es; simpl_env;
    [| rewrite <- !app_assoc; cbn [app]; eexists; split; [reflexivity |];
       split; intros; pick_line; contradiction].
  destruct (rank C w =? 0)%Z eqn:Er; simpl_env;
    [| rewrite <- !app_assoc; cbn [app]; eexists; split; [reflexivity |];
       split; intros; pick_line; contradiction].
  rewrite !Qeq_bool_inject_Z.
  destruct (solver_iteration C w =? 0)%Z eqn:E0; simpl_env;
    [rewrite <- !app_assoc; cbn [app]; eexists; split; [reflexivity |];
     split; intros; pick_line; ring |].
  destruct (solver_iteration C w - 1 =? 0)%Z eqn:E1; simpl_env;
    [rewrite <- !app_assoc; cbn [app]; eexists; split; [reflexivity |];
     split; intros; pick_line; ring |].
  apply Z.eqb_neq, inject_Z_nonzero in E1.
  destruct (nx a * nz a =? 0)%Z eqn:Eg; simpl_env;
    [rewrite <- !app_assoc; cbn [app]; eexists; split; [reflexivity |];
     split; intros; pick_line; ring |].
  apply Z.eqb_neq, inject_Z_nonzero in Eg.
  rewrite <- !app_assoc; cbn [app]. eexists. split; [reflexivity |].
  split; intros; pick_line; [ring |].
  repeat split; try reflexivity.
  - cbn [In]. tauto.
  - cbn [In]. tauto.
  - field. split; assumption.
  - field. split; assumption.
Qed.

(** X15.  The main block never ends normally without a completed pass
    through the loop: when it falls through, [start_time] is bound and the
    log holds at least one iteration record. *)
Theorem normal_end_needs_a_completed_iteration (fuel : nat) (w : World C) :
  match main_block C a initial_time fuel (initial_env C w) with
  | Ok _ st' =>
      start_time st' <> None /\ (1 <= iterations_logged (out st'))%nat
  | _ => True
  end.
Proof.
  pose proof (try_suite_start_time_invariant fuel w) as Hinv.
  unfold main_block, except_suite, modify.
  destruct (try_suite C fuel (initial_env C w)) as [[] st1 | e st1 |];
    [| | exact I].
  - pose proof (finally_suite_outcome st1) as Hfin.
    destruct (finally_suite C a initial_time st1) as [[] st' | e st' |];
      [| exact I | exact I].
    destruct Hfin as (_ & (l & El) & Hbound & Hsame).
    destruct Hinv as [(_ & Hnone & _) | (_ & _ & Hlogged)];
      [contradiction |].
    split; [congruence |].
    rewrite El. unfold iterations_logged in *.
    rewrite filter_app, length_app. lia.
  - destruct (finally_suite C a initial_time (emit C LogExceptionRaised st1))
      as [[] st' | e' st' |]; exact I.
Qed.

End MainBlockMore.

(* ===================================================================== *)
(** ** More on the initial condition and the command line *)
(* ===================================================================== *)

Section InitialConditionMore.

Variable gauss : Z -> nat -> Q.

Lemma length_take_slice {A} (s : slice) (l : list A) :
  (snd s <= List.length l)%nat ->
  List.length (take_slice s l) = (snd s - fst s)%nat.
Proof.
  intros H. unfold take_slice. rewrite length_firstn, length_skipn. lia.
Qed.

Lemma standard_normal_shape seed n0 n1 :
  List.length (standard_normal gauss seed (n0, n1)) = n0
  /\ Forall (fun row => List.length row = n1) (standard_normal gauss seed (n0, n1)).
Proof.
  unfold standard_normal. cbn [fst snd]. split.
  - now rewrite length_map, length_seq.
  - apply Forall_forall. intros row Hin. apply in_map_iff in Hin.
    destruct Hin as (i & <- & _). now rewrite length_map, length_seq.
Qed.

Lemma Forall_take_slice {A} (P : A -> Prop) (s : slice) (l : list A) :
  Forall P l -> Forall P (take_slice s l).
Proof.
  intros H. apply Forall_forall. intros x Hin. unfold take_slice in Hin.
  apply (proj1 (Forall_forall P l) H).
  rewrite <- (firstn_skipn (fst s) l). apply in_or_app. right.
  rewrite <- (firstn_skipn (snd s - fst s) (skipn (fst s) l)).
  apply in_or_app. left. exact Hin.
Qed.

(** X9.  With slices inside the global shape and a [z] grid of the
    local width, the local noise and [T['g']] both have the local shape:
    [r1 - r0] rows of [c1 - c0] entries. *)
Theorem initial_field_has_local_shape
        (n0 n1 r0 r1 c0 c1 : nat) (z : list Q) :
  (r1 <= n0)%nat -> (c1 <= n1)%nat -> List.length z = (c1 - c0)%nat ->
  let local := noise gauss (n0, n1) ((r0, r1), (c0, c1)) in
  List.length local = (r1 - r0)%nat
  /\ Forall (fun row => List.length row = (c1 - c0)%nat) local
  /\ List.length (T_g local z) = (r1 - r0)%nat
  /\ Forall (fun row => List.length row = (c1 - c0)%nat) (T_g local z).
Proof.
  intros Hr Hc Hz local.
  destruct (standard_normal_shape 42 n0 n1) as [Hlen Hrows].
  assert (L1 : List.length local = (r1 - r0)%nat).
  { unfold local, noise, index_slices. cbn [fst snd].
    rewrite length_map. rewrite length_take_slice; cbn [fst snd]; lia. }
  assert (L2 : Forall (fun row => List.length row = (c1 - c0)%nat) local).
  { unfold local, noise, index_slices. cbn [fst snd].
    apply Forall_forall. intros row Hin. apply in_map_iff in Hin.
    destruct Hin as (row0 & <- & Hin0).
    pose proof (Forall_take_slice _ (r0, r1) _ Hrows) as Hsl.
    rewrite Forall_forall in Hsl. specialize (Hsl row0 Hin0).
    rewrite length_take_slice; cbn [fst snd]; lia. }
  repeat split; try assumption.
  - unfold T_g, pert. now rewrite !length_map.
  - unfold T_g, pert. rewrite map_map. apply Forall_forall.
    intros row Hin. apply in_map_iff in Hin.
    destruct Hin as (row0 & <- & Hin0).
    rewrite Forall_forall in L2. specialize (L2 row0 Hin0).
    rewrite !length_map, length_combine. lia.
Qed.

(** Cutting a list into consecutive slices and joining them again. *)
Lemma concat_take_slices {A} (sizes : list nat) :
  forall (start : nat) (l : list A),
    (start + list_sum sizes = List.length l)%nat ->
    List.concat (map (fun s => take_slice s l) (blocks start sizes))
    = skipn start l.
Proof.
  induction sizes as [|s sizes IH]; intros start l H;
    cbn [blocks map List.concat]; simpl in H.
  - symmetry. apply skipn_all2. lia.
  - rewrite IH by lia. unfold take_slice. cbn [fst snd].
    replace (start + s - start)%nat with s by lia.
    replace (start + s)%nat with (s + start)%nat by lia.
    rewrite <- skipn_skipn. apply firstn_skipn.
Qed.

Lemma take_whole_row {A} (n : nat) (row : list A) :
  List.length row = n -> take_slice (0, n)%nat row = row.
Proof.
  intros H. unfold take_slice. cbn [fst snd]. rewrite skipn_0, Nat.sub_0_r.
  apply firstn_all2. lia.
Qed.

Lemma take_slice_map {A B} (f : A -> B) (s : slice) (l : list A) :
  take_slice s (map f l) = map f (take_slice s l).
Proof. unfold take_slice. now rewrite skipn_map, firstn_map. Qed.

Lemma take_slice_nil {A} (s : slice) : take_slice s (@nil A) = [].
Proof. unfold take_slice. now rewrite skipn_nil, firstn_nil. Qed.

(** X10.  Cut the first axis among the workers into consecutive slices
    that add up to the global extent, each worker keeping whole rows:
    their local noise arrays, stacked in rank order, are the global
    array. *)
Theorem row_blocks_reassemble (n0 n1 : nat) (sizes : list nat) :
  list_sum sizes = n0 ->
  List.concat (map (fun s => noise gauss (n0, n1) (s, (0, n1)%nat))
              (blocks 0 sizes))
  = standard_normal gauss 42 (n0, n1).
Proof.
  intros Hsum.
  destruct (standard_normal_shape 42 n0 n1) as [Hlen Hrows].
  set (m := standard_normal gauss 42 (n0, n1)) in *.
  assert (Hblock : forall s, noise gauss (n0, n1) (s, (0, n1)%nat)
                             = take_slice s m).
  { intros s. unfold noise, index_slices. cbn [fst snd]. fold m.
    rewrite <- take_slice_map. f_equal.
    rewrite <- (map_id m) at 2. apply map_ext_in. intros row Hin.
    apply take_whole_row. rewrite Forall_forall in Hrows. now apply Hrows. }
  rewrite (map_ext _ _ Hblock).
  rewrite concat_take_slices by lia. apply skipn_0.
Qed.

(** X11.  Cut the last axis instead: for every row of the grid, the
    workers' pieces of that row, joined in rank order, are the row of the
    global array. *)
Theorem column_blocks_reassemble (n0 n1 : nat) (sizes : list nat) (i : nat) :
  list_sum sizes = n1 ->
  (i < n0)%nat ->
  List.concat (map (fun s => nth i (noise gauss (n0, n1) ((0, n0)%nat, s)) [])
              (blocks 0 sizes))
  = nth i (standard_normal gauss 42 (n0, n1)) [].
Proof.
  intros Hsum Hi.
  destruct (standard_normal_shape 42 n0 n1) as [Hlen Hrows].
  set (m := standard_normal gauss 42 (n0, n1)) in *.
  assert (Hblock : forall s,
             nth i (noise gauss (n0, n1) ((0, n0)%nat, s)) []
             = take_slice s (nth i m [])).
  { intros s. unfold noise, index_slices. cbn [fst snd]. fold m.
    rewrite (take_whole_row n0 m Hlen).
    rewrite <- (take_slice_nil s) at 1. apply map_nth. }
  rewrite (map_ext _ _ Hblock).
  rewrite concat_take_slices; [apply skipn_0 |].
  rewrite Forall_forall in Hrows. cbn [Nat.add].
  rewrite (Hrows (nth i m [])); [exact Hsum |].
  apply nth_In. lia.
Qed.

End InitialConditionMore.

(** X12.  Between the walls the envelope [(zt - z) * (z - zb)] lies in
    [0, 1/4]: an entry of [T['g']] has the sign of its noise value and at
    most 1/4000 of its size (over the rationals). *)
Theorem field_is_damped_noise
        (nse : list (list Q)) (z : list Q) (i j : nat) (v zj : Q) :
  at2 (T_g nse z) i j = Some v ->
  nth_error z j = Some zj ->
  zb <= zj -> zj <= zt ->
  exists n,
    at2 nse i j = Some n
    /\ Qabs v <= (1 # 4000) * Qabs n
    /\ (0 <= n -> 0 <= v)
    /\ (n <= 0 -> v <= 0).
Proof.
  intros H Hz Hlo Hhi.
  destruct (at2_T_g _ _ _ _ _ _ H Hz) as (n & Hn & ->).
  exists n. split; [exact Hn |].
  unfold F, zt, zb, Lz in *.
  set (e := (1 - zj) * (zj - 0)).
  assert (He0 : 0 <= e) by (unfold e; nra).
  assert (Hsq : 0 <= (zj - (1 # 2)) * (zj - (1 # 2)))
    by (destruct (Qlt_le_dec zj (1 # 2)); nra).
  assert (He1 : e <= 1 # 4) by (unfold e; nra).
  assert (Ev : 1 * ((1 # 1000) * n * (1 - zj) * (zj - 0))
               == (1 # 1000) * (n * e)) by (unfold e; ring).
  rewrite Ev. repeat split.
  - apply Qabs_Qle_condition.
    apply (Qabs_case n); intros Hsign; split; nra.
  - intros Hpos. nra.
  - intros Hneg. nra.
Qed.

Lemma int_of_float_nonneg (x : Q) : 0 <= x -> int_of_float x = Qfloor x.
Proof.
  destruct x as [n d]. unfold Qle, int_of_float, Qfloor. cbn.
  intros H. apply Z.quot_div_nonneg; lia.
Qed.

Lemma int_of_float_nonpos (x : Q) : x <= 0 -> int_of_float x = Qceiling x.
Proof.
  destruct x as [n d]. unfold Qle, int_of_float, Qceiling, Qfloor. cbn.
  intros H.
  replace n with (- - n)%Z at 1 by lia.
  rewrite Z.quot_opp_l by lia. f_equal.
  apply Z.quot_div_nonneg; lia.
Qed.

(** X13.  [--niter] is truncated towards zero before 1 is added: the
    iteration threshold is [floor(x) + 1] for [x >= 0] and
    [ceiling(x) + 1] for [x <= 0]; every [x] strictly between -1 and 1
    gives the threshold 1. *)
Theorem niter_truncates_towards_zero (a : Args) :
  (0 <= arg_niter a ->
   stop_iteration (integration_parameters a)
   = (Qfloor (arg_niter a) + 1)%Z)
  /\ (arg_niter a <= 0 ->
      stop_iteration (integration_parameters a)
      = (Qceiling (arg_niter a) + 1)%Z)
  /\ (- (1) < arg_niter a -> arg_niter a < 1 ->
      stop_iteration (integration_parameters a) = 1%Z).
Proof.
  cbn [stop_iteration integration_parameters]. unfold niter.
  split; [| split].
  - intros H. now rewrite int_of_float_nonneg.
  - intros H. now rewrite int_of_float_nonpos.
  - intros Hlo Hhi.
    assert (E : int_of_float (arg_niter a) = 0%Z); [| now rewrite E].
    destruct (arg_niter a) as [n d]. unfold Qlt, int_of_float in *.
    cbn in *. apply Z.quot_small_iff; lia.
Qed.

(* ===================================================================== *)
(** ** The further properties on small inputs *)
(* ===================================================================== *)

Lemma failure_of_env_of {C : Collaborators} (r : result C unit)
      (fallback : Env C) (e : exn) :
  failure_of r = Some e -> r = Raise e (env_of r fallback).
Proof. destruct r as [[] st | e' st |]; cbn; congruence. Qed.

(** After the first pass of the quiet run the clock read 101; nine more
    passes later [start_time] is still 101. *)
Lemma start_time_is_bound_once_witness :
  match
    while_ok quiet 20
             (env_of (loop_body quiet (loop_entry quiet (entry 10)))
                     (loop_entry quiet (entry 10)))
  with
  | Ok _ st' => start_time st' = Some 101 /\ first_loop st' = false
  | _ => False
  end.
Proof.
  assert (H0 : first_loop
                 (env_of (loop_body quiet (loop_entry quiet (entry 10)))
                         (loop_entry quiet (entry 10))) = false)
    by (vm_compute; reflexivity).
  generalize (start_time_is_bound_once quiet 20 _ H0).
  vm_compute. exact (fun H => H).
Defined.

(** [--niter=-1]: the iteration threshold is 0, [solver.ok] is false on
    entry. *)
Lemma no_iteration_ends_in_name_error_witness :
  exists st,
    main_block quiet (small_run (-1)) 0 6 (initial_env quiet (entry (-1)))
    = Raise (NameError "start_time") st
    /\ out st = [LogStartingLoop; LogIterations 0; LogSimEndTime 0].
Proof.
  apply (no_iteration_ends_in_name_error quiet (small_run (-1)) 0 5
           (entry (-1))).
  vm_compute. reflexivity.
Defined.

(** At the end of the quiet run of eleven iterations the report is
    safe. *)
Lemma finally_suite_ends_normally_iff_witness :
  match
    finally_suite quiet (small_run 10) 0
                  (env_of (try_suite quiet 20 (initial_env quiet (entry 10)))
                          (initial_env quiet (entry 10)))
  with
  | Ok _ st' => rank quiet (world st') = 0%Z
  | _ => False
  end.
Proof.
  assert (H0 : start_time
                 (env_of (try_suite quiet 20 (initial_env quiet (entry 10)))
                         (initial_env quiet (entry 10))) = Some 101)
    by (vm_compute; reflexivity).
  generalize (finally_suite_ends_normally_iff quiet (small_run 10) 0 _ 101
                                              H0).
  vm_compute. intros _. reflexivity.
Defined.

Lemma late_failure_is_reported_and_reraised_witness :
  exists st',
    main_block late (small_run 10) 0 20 (initial_env late (entry 10))
    = Raise (External "non-finite field") st'.
Proof.
  pose (st0 := initial_env late (entry 10)).
  pose (st1 := env_of (try_suite late 20 st0) st0).
  destruct (late_failure_is_reported_and_reraised late (small_run 10) 0
              20 st0 st1 (External "non-finite field") 101 103 (world st1))
    as (st' & H & _).
  - apply failure_of_env_of. vm_compute. reflexivity.
  - vm_compute. reflexivity.
  - vm_compute. reflexivity.
  - vm_compute. reflexivity.
  - vm_compute. discriminate.
  - vm_compute. discriminate.
  - exists st'. exact H.
Defined.

Lemma loop_failure_always_propagates_witness :
  match
    main_block doomed (small_run 10) 0 20 (initial_env doomed (entry 10))
  with
  | Raise _ st' => In LogExceptionRaised (out st')
  | _ => False
  end.
Proof.
  assert (Htry : try_suite doomed 20 (initial_env doomed (entry 10))
                 = Raise (External "non-finite field")
                         (env_of (try_suite doomed 20
                                            (initial_env doomed (entry 10)))
                                 (initial_env doomed (entry 10))))
    by (apply failure_of_env_of; vm_compute; reflexivity).
  generalize (loop_failure_always_propagates doomed (small_run 10) 0 20
                _ _ _ Htry).
  destruct (main_block doomed (small_run 10) 0 20
                       (initial_env doomed (entry 10)))
    as [[] st' | e' st' |].
  - intros [].
  - intros (_ & l & El). rewrite El. apply in_or_app. right. left.
    reflexivity.
  - intros [].
Defined.

(** The quiet run seen from rank 1. *)
Lemma only_rank_zero_prints_witness :
  match
    main_block quiet (small_run 10) 0 20 (initial_env quiet (entry_on 1 10))
  with
  | Ok _ st' => existsb is_print (out st') = false
  | _ => False
  end.
Proof.
  generalize (only_rank_zero_prints quiet (small_run 10) 0 20
                                    (entry_on 1 10)).
  vm_compute. intros H. apply H. discriminate.
Defined.

Lemma initial_field_has_local_shape_witness :
  List.length (T_g (noise sample_deviates (4, 3)%nat ((2, 4), (0, 3))%nat)
                   [0; 1 # 2; 1]) = 2%nat
  /\ Forall (fun row => List.length row = 3%nat)
            (T_g (noise sample_deviates (4, 3)%nat ((2, 4), (0, 3))%nat)
                 [0; 1 # 2; 1]).
Proof.
  destruct (initial_field_has_local_shape sample_deviates 4 3 2 4 0 3
              [0; 1 # 2; 1])
    as (_ & _ & Hlen & Hrows).
  - lia.
  - lia.
  - reflexivity.
  - split; [exact Hlen | exact Hrows].
Defined.

Lemma row_blocks_reassemble_witness :
  List.concat
    (map (fun s => noise sample_deviates (4, 3)%nat (s, (0, 3)%nat))
         (blocks 0 [1; 3]%nat))
  = standard_normal sample_deviates 42 (4, 3)%nat.
Proof.
  apply (row_blocks_reassemble sample_deviates 4 3 [1; 3]%nat).
  reflexivity.
Defined.

Lemma column_blocks_reassemble_witness :
  List.concat
    (map (fun s => nth 2 (noise sample_deviates (4, 3)%nat ((0, 4)%nat, s)) [])
         (blocks 0 [1; 2]%nat))
  = nth 2 (standard_normal sample_deviates 42 (4, 3)%nat) [].
Proof.
  apply (column_blocks_reassemble sample_deviates 4 3 [1; 2]%nat 2).
  - reflexivity.
  - lia.
Defined.

(** In the middle of the layer, where the envelope is largest. *)
Lemma field_is_damped_noise_witness :
  exists n,
    at2 (noise sample_deviates (4, 3)%nat ((2, 4), (0, 3))%nat) 0 1 = Some n
    /\ Qabs (n * (1 # 4000)) <= (1 # 4000) * Qabs n.
Proof.
  destruct (field_is_damped_noise
              (noise sample_deviates (4, 3)%nat ((2, 4), (0, 3))%nat)
              [0; 1 # 2; 1] 0 1
              (sample_deviates 42 7 * (1 # 4000)) (1 # 2))
    as (n & Hn & Habs & _).
  - vm_compute. reflexivity.
  - reflexivity.
  - vm_compute. discriminate.
  - vm_compute. discriminate.
  - exists n. split; [exact Hn |].
    vm_compute in Hn. injection Hn as <-. exact Habs.
Defined.

(** [--niter=2.7] gives the threshold 3, and [--niter=-0.5] the
    threshold 1. *)
Lemma niter_truncates_towards_zero_witness :
  stop_iteration (integration_parameters (small_run (27 # 10))) = 3%Z
  /\ stop_iteration (integration_parameters (small_run (- (1 # 2)))) = 1%Z.
Proof.
  split.
  - rewrite (proj1 (niter_truncates_towards_zero (small_run (27 # 10)))).
    + reflexivity.
    + vm_compute. discriminate.
  - apply (proj2 (proj2 (niter_truncates_towards_zero
                           (small_run (- (1 # 2)))))).
    + vm_compute. reflexivity.
    + vm_compute. reflexivity.
Defined.
